(** * relname: names of people and organizations, in common and file-as form

    A shallow embedding of the Go package [relname] (file relname.go) and
    the verification of its specification.

    Go strings are immutable byte sequences: they are modelled by
    [String.string], whose characters are the 256 byte values.  Go's [int]
    is modelled by [Z] (a string length always fits in an [int]); a
    [uint16] is a [Z] reduced modulo 65536 at every conversion and at every
    arithmetic operation.  An operation that can panic at run time (an
    index or a slice expression out of range) returns [option]: [None] is
    the panic. *)

From Stdlib Require Import ZArith Bool List Ascii String Lia.
From Stdlib Require Import DecimalString.
Import ListNotations.
Local Open Scope string_scope.
Local Open Scope Z_scope.

(** ** The Go run time: panics, lengths, indexing, slicing, uint16 *)

Module Go.

Definition panics (A : Type) : Type := option A.

Definition ret {A : Type} (a : A) : panics A := Some a.

Definition bind {A B : Type} (c : panics A) (k : A -> panics B) : panics B :=
  match c with
  | Some a => k a
  | None => None
  end.

(** [len(s)] *)
Definition len (s : string) : Z := Z.of_nat (String.length s).

(** [s[i]]: panics unless [0 <= i < len(s)]. *)
Definition index (s : string) (i : Z) : panics ascii :=
  if (0 <=? i) && (i <? len s) then String.get (Z.to_nat i) s else None.

(** [s[lo:hi]]: panics unless [0 <= lo <= hi <= len(s)]. *)
Definition slice (s : string) (lo hi : Z) : panics string :=
  if (0 <=? lo) && (lo <=? hi) && (hi <=? len s)
  then Some (String.substring (Z.to_nat lo) (Z.to_nat (hi - lo)) s)
  else None.

(** [s[lo:]] and [s[:hi]] *)
Definition slice_from (s : string) (lo : Z) : panics string := slice s lo (len s).
Definition slice_to (s : string) (hi : Z) : panics string := slice s 0 hi.

(** The conversion [uint16(z)] and the wrap-around of uint16 arithmetic. *)
Definition uint16 (z : Z) : Z := z mod 65536.

End Go.

Import Go.

Arguments len : simpl never.
Arguments index : simpl never.
Arguments slice : simpl never.
Arguments uint16 : simpl never.

Notation "x <- c ;; k" := (bind c (fun x => k))
  (at level 61, c at next level, right associativity).

(** ** The two regular expressions of the package

    Go's [regexp] works on the bytes of the UTF-8 text; both patterns of
    the package only match ASCII bytes, so each is modelled on bytes. *)

Module Regexp.

(** The class [\s] of Go's RE2 syntax is [[\t\n\f\r ]]. *)
Definition isSpace (c : ascii) : bool :=
  match c with
  | "009"%char | "010"%char | "012"%char | "013"%char | " "%char => true
  | _ => false
  end.

(** [regexp.MustCompile(`\s+`).ReplaceAllString(s, repl)] for a [repl]
    without [$]: scanning from the left, a match starts at a byte of the
    class, is greedy, so takes the whole run, and is replaced by [repl];
    the other bytes are copied.  [inMatch] tells that the byte before
    belongs to the match being consumed. *)
Fixpoint ReplaceAllSpaceRuns (repl : string) (inMatch : bool) (s : string) : string :=
  match s with
  | EmptyString => EmptyString
  | String c r =>
      if isSpace c
      then if inMatch then ReplaceAllSpaceRuns repl true r
           else repl ++ ReplaceAllSpaceRuns repl true r
      else String c (ReplaceAllSpaceRuns repl false r)
  end.

(** The class [[a-z]]. *)
Definition isLower (c : ascii) : bool :=
  let n := Z.of_N (N_of_ascii c) in (97 <=? n) && (n <=? 122).

(** [regexp.MustCompile(`^[a-z][a-z][a-z]$`).MatchString(s)]: without the
    flag [m], [^] and [$] only match at the two ends of the text. *)
Definition MatchThreeLower (s : string) : bool :=
  match s with
  | String a (String b (String c EmptyString)) => isLower a && isLower b && isLower c
  | _ => false
  end.

End Regexp.

Import Regexp.

(** [var reWhitespace = regexp.MustCompile(`\s+`)], used through its method
    [ReplaceAllString]. *)
Definition reWhitespace_ReplaceAllString (s repl : string) : string :=
  ReplaceAllSpaceRuns repl false s.

(** [var reRelator = regexp.MustCompile(`^[a-z][a-z][a-z]$`)], used through
    its method [MatchString]. *)
Definition reRelator_MatchString (s : string) : bool := MatchThreeLower s.

(** ** CleanString *)

Definition CleanString (s0 : string) : panics string :=
  let s := reWhitespace_ReplaceAllString s0 " " in
  let first := 0 in
  let last := len s in
  if last >? 0 then
    c0 <- index s 0 ;;
    if (c0 =? " ")%char && (last =? 1) then ret ""
    else
      let first := if (c0 =? " ")%char then first + 1 else first in
      cl <- index s (last - 1) ;;
      let last := if (cl =? " ")%char then last - 1 else last in
      slice s first last
  else slice s first last.

(** ** Name objects *)

Record Name : Type := mkName {
  text : string;
  boSurname : Z;   (* uint16: index of first byte of surname *)
  eoSurname : Z    (* uint16: 1 + index of last byte of surname *)
}.

(** The zero value [Name{}]. *)
Definition zeroName : Name := mkName "" 0 0.

(** ** Errors *)

Inductive error : Type :=
| EmptyPartError (NumArgs : Z) (Arg1 Arg2 Arg3 : string)
| BadRelatorCode (N : Name) (C : string)
| BadName (C : string).

(** A Go result [(Name, error)]: the error is [nil] ([None]) on success. *)

Definition NewName1 (text : string) : panics (Name * option error) :=
  t <- CleanString text ;;
  if (t =? "")%string
  then ret (zeroName, Some (EmptyPartError 1 text "" ""))
  else ret (mkName text 0 (uint16 (len text)), None).

Definition NewName2 (forename surname : string) : panics (Name * option error) :=
  f <- CleanString forename ;;
  s <- CleanString surname ;;
  if (f =? "")%string || (s =? "")%string
  then ret (zeroName, Some (EmptyPartError 2 forename surname ""))
  else
    let text := f ++ " " ++ s in
    ret (mkName text (uint16 (len f + 1)) (uint16 (len text)), None).

Definition NewName3 (forename surname generation : string) : panics (Name * option error) :=
  f <- CleanString forename ;;
  s <- CleanString surname ;;
  g <- CleanString generation ;;
  if (f =? "")%string || (s =? "")%string || (g =? "")%string
  then ret (zeroName, Some (EmptyPartError 3 forename surname generation))
  else
    let text := f ++ " " ++ s in
    ret (mkName (text ++ " " ++ g) (uint16 (len f + 1)) (uint16 (len text)), None).

(** ** Accessors of Name *)

Definition Common (n : Name) : panics string := ret (text n).

Definition FileAs (n : Name) : panics string :=
  if boSurname n =? 0 then ret (text n)
  else
    sur <- slice (text n) (boSurname n) (eoSurname n) ;;
    fore <- slice_to (text n) (uint16 (boSurname n - 1)) ;;
    let faName := sur ++ ", " ++ fore in
    if eoSurname n <? uint16 (len (text n)) then
      gen <- slice_from (text n) (uint16 (eoSurname n + 1)) ;;
      ret (faName ++ " " ++ gen)
    else ret faName.

Definition Surname (n : Name) : panics string :=
  slice (text n) (boSurname n) (eoSurname n).

Definition Forename (n : Name) : panics string :=
  if boSurname n =? 0 then ret ""
  else slice_to (text n) (uint16 (boSurname n - 1)).

Definition Generation (n : Name) : panics string :=
  if eoSurname n =? uint16 (len (text n)) then ret ""
  else slice_from (text n) (uint16 (eoSurname n + 1)).

Definition NumParts (n : Name) : panics Z :=
  if boSurname n =? 0 then
    if (text n =? "")%string then ret 0 else ret 1
  else if eoSurname n =? uint16 (len (text n)) then ret 2
  else ret 3.

(** The method [String] of [Name]. *)
Definition Name_String (n : Name) : panics string := ret (text n).

(** ** RelatedName objects *)

Record RelatedName : Type := mkRelatedName {
  rnName : Name;                        (* the embedded Name *)
  relCode : ascii * ascii * ascii       (* [3]byte *)
}.

Definition zeroRelatedName : RelatedName :=
  mkRelatedName zeroName (zero, zero, zero).

Definition NewRelatedName (n : Name) (relatorCode : string)
  : panics (RelatedName * option error) :=
  if negb (reRelator_MatchString relatorCode)
  then ret (zeroRelatedName, Some (BadRelatorCode n relatorCode))
  else
    np <- NumParts n ;;
    if np =? 0 then ret (zeroRelatedName, Some (BadName relatorCode))
    else
      c0 <- index relatorCode 0 ;;
      c1 <- index relatorCode 1 ;;
      c2 <- index relatorCode 2 ;;
      ret (mkRelatedName n (c0, c1, c2), None).

Definition Relator (rn : RelatedName) : panics string :=
  let '(b0, b1, b2) := relCode rn in
  ret (String b0 (String b1 (String b2 ""))).

(** The method [String] of [RelatedName]. *)
Definition RelatedName_String (rn : RelatedName) : panics string :=
  r <- Relator rn ;;
  ret (text (rnName rn) ++ " (" ++ r ++ ")").

(** ** The data-model invariants, as decidable predicates on strings *)

Fixpoint allChars (p : ascii -> bool) (s : string) : bool :=
  match s with
  | EmptyString => true
  | String c r => p c && allChars p r
  end.

(** [text !~ /^\s/] *)
Definition noLeadingSpace (s : string) : bool :=
  match s with
  | EmptyString => true
  | String c _ => negb (isSpace c)
  end.

(** [text !~ /\s$/] *)
Fixpoint noTrailingSpace (s : string) : bool :=
  match s with
  | EmptyString => true
  | String c r =>
      match r with
      | EmptyString => negb (isSpace c)
      | String _ _ => noTrailingSpace r
      end
  end.

(** [text !~ /\s\s/] *)
Fixpoint noSpaceRun (s : string) : bool :=
  match s with
  | EmptyString => true
  | String c r =>
      match r with
      | EmptyString => true
      | String d _ => negb (isSpace c && isSpace d) && noSpaceRun r
      end
  end.

(** The only whitespace character left is the space U+0020. *)
Definition blankOrGraphic (c : ascii) : bool := negb (isSpace c) || (c =? " ")%char.

(** A normalized string: single spaces only, and only as separators. *)
Definition normalized (s : string) : bool :=
  noLeadingSpace s && noTrailingSpace s && noSpaceRun s && allChars blankOrGraphic s.

(** [0 <= boSurname <= eoSurname <= len(text)] *)
Definition offsetsOrdered (n : Name) : Prop :=
  0 <= boSurname n /\ boSurname n <= eoSurname n /\ eoSurname n <= len (text n).

(** The Names a caller can hold: the fields of [Name] are not exported, so a
    Name is the zero value or comes from a successful constructor call. *)
Inductive Constructed : Name -> Prop :=
| Constructed1 (t : string) (n : Name) :
    NewName1 t = Some (n, None) -> Constructed n
| Constructed2 (f s : string) (n : Name) :
    NewName2 f s = Some (n, None) -> Constructed n
| Constructed3 (f s g : string) (n : Name) :
    NewName3 f s g = Some (n, None) -> Constructed n.

Definition ValidName (n : Name) : Prop := n = zeroName \/ Constructed n.

(** A call returns: it does not panic. *)
Definition returns {A : Type} (c : panics A) : Prop := exists a, c = Some a.

(** "Exactly three lowercase ASCII letters", in the words of the
    specification: three bytes, each from [a] (97) to [z] (122). *)
Definition lowercaseLetter (c : ascii) : Prop :=
  (97 <= nat_of_ascii c <= 122)%nat.

Definition threeLowercaseLetters (s : string) : Prop :=
  exists a b c, s = String a (String b (String c ""))
                /\ lowercaseLetter a /\ lowercaseLetter b /\ lowercaseLetter c.

(** ** The normalizer in the words of the specification

    "Every maximal run of one-or-more whitespace characters is replaced by
    exactly one space character, and any resulting leading or trailing space
    is removed." *)

(** The maximal runs of a string, each with its kind ([true]: whitespace). *)
Fixpoint runs (s : string) : list (bool * string) :=
  match s with
  | EmptyString => []
  | String c r =>
      match runs r with
      | (k, w) :: rest =>
          if Bool.eqb k (isSpace c) then (k, String c w) :: rest
          else (isSpace c, String c "") :: (k, w) :: rest
      | [] => [(isSpace c, String c "")]
      end
  end.

Fixpoint joinRuns (l : list string) : string :=
  match l with
  | [] => ""
  | w :: rest => w ++ joinRuns rest
  end.

(** A run is not empty and all its characters are of its kind. *)
Definition runOfKind (r : bool * string) : bool :=
  negb (snd r =? "")%string && allChars (fun c => Bool.eqb (isSpace c) (fst r)) (snd r).

(** Consecutive runs are of different kinds, so each run is maximal. *)
Fixpoint alternating (l : list (bool * string)) : bool :=
  match l with
  | [] => true
  | r1 :: rest =>
      match rest with
      | [] => true
      | r2 :: _ => negb (Bool.eqb (fst r1) (fst r2)) && alternating rest
      end
  end.

Definition collapseRun (r : bool * string) : string :=
  if fst r then " " else snd r.

Fixpoint stripLeadingSpaces (s : string) : string :=
  match s with
  | EmptyString => ""
  | String c r => if (c =? " ")%char then stripLeadingSpaces r else s
  end.

Fixpoint stripTrailingSpaces (s : string) : string :=
  match s with
  | EmptyString => ""
  | String c r =>
      match stripTrailingSpaces r with
      | EmptyString => if (c =? " ")%char then "" else String c ""
      | r' => String c r'
      end
  end.

Definition spec_CleanString (s : string) : string :=
  stripTrailingSpaces (stripLeadingSpaces (joinRuns (map collapseRun (runs s)))).

(** A string of [n] copies of one byte, for inputs of 64 KiB and more. *)
Fixpoint replicate_nat (n : nat) (c : ascii) : string :=
  match n with
  | O => ""
  | S m => String c (replicate_nat m c)
  end.

Definition replicate (n : Z) (c : ascii) : string := replicate_nat (Z.to_nat n) c.

Arguments replicate : simpl never.

(** ** The messages of the errors *)

(** [fmt.Sprintf("%d", z)] for an [int]: the decimal digits, after a minus
    sign for a negative number. *)
Definition formatInt (z : Z) : string := NilZero.string_of_int (Z.to_int z).

Section ErrorMessages.

(** [fmt.Sprintf("%q", s)] and the strings under [%#v] are
    [strconv.Quote(s)], a function of Go's standard library: the messages
    take it as a parameter. *)
Variable Quote : string -> string.

(** [if CleanString(arg) == "" { nEmpty++ }] *)
Definition countEmpty (arg : string) (nEmpty : Z) : panics Z :=
  c <- CleanString arg ;;
  ret (if (c =? "")%string then nEmpty + 1 else nEmpty).

(** The method [Error] of [*EmptyPartError].  In the [switch], the clause
    [default] is taken by every NumArgs other than 2, 1 and 0, and falls
    through to [case 2], which falls through to [case 1]. *)
Definition EmptyPartError_Error (NumArgs : Z) (Arg1 Arg2 Arg3 : string)
  : panics string :=
  if NumArgs =? 0 then
    ret ("BUG: bad EmptyPartError value relname.EmptyPartError{NumArgs:"
         ++ formatInt NumArgs ++ ", Arg1:" ++ Quote Arg1
         ++ ", Arg2:" ++ Quote Arg2 ++ ", Arg3:" ++ Quote Arg3 ++ "}")
  else
    let inDefault := negb (NumArgs =? 2) && negb (NumArgs =? 1) in
    let inCase2 := inDefault || (NumArgs =? 2) in
    let nEmpty := 0 in
    nEmpty <- (if inDefault then countEmpty Arg3 nEmpty else ret nEmpty) ;;
    let arg3 := if inDefault then ", " ++ Quote Arg3 else "" in
    nEmpty <- (if inCase2 then countEmpty Arg2 nEmpty else ret nEmpty) ;;
    let arg2 := if inCase2 then ", " ++ Quote Arg2 else "" in
    nEmpty <- countEmpty Arg1 nEmpty ;;
    let arg1 := Quote Arg1 in
    let plural := if nEmpty =? 1 then "" else "s" in
    ret ("empty or whitespace-only argument" ++ plural ++ " in NewName"
         ++ formatInt NumArgs ++ "(" ++ arg1 ++ arg2 ++ arg3 ++ ")").

(** The method [Error] of [*BadRelatorCode]: under [%q] a Name is formatted
    through its method [String]. *)
Definition BadRelatorCode_Error (N : Name) (C : string) : panics string :=
  n <- Name_String N ;;
  ret ("NewRelatedName(" ++ Quote n ++ "," ++ Quote C
       ++ "): need /^[a-z][a-z][a-z]$/ for 2nd arg").

(** The method [Error] of [*BadName]. *)
Definition BadName_Error (C : string) : panics string :=
  ret ("NewRelatedName(Name{}," ++ Quote C ++ "): need a non-zero-value Name").

(** The method [Error] of the interface [error], on the three error types
    of the package. *)
Definition error_Error (e : error) : panics string :=
  match e with
  | EmptyPartError NumArgs Arg1 Arg2 Arg3 => EmptyPartError_Error NumArgs Arg1 Arg2 Arg3
  | BadRelatorCode N C => BadRelatorCode_Error N C
  | BadName C => BadName_Error C
  end.

End ErrorMessages.

(** ** Vocabulary for the further properties *)

(** [err != nil] on a result. *)
Definition failed {A : Type} (r : A * option error) : bool :=
  match snd r with
  | Some _ => true
  | None => false
  end.

(** The bytes of a string that are not whitespace, in order. *)
Fixpoint graphicBytes (s : string) : string :=
  match s with
  | EmptyString => ""
  | String c r => if isSpace c then graphicBytes r else String c (graphicBytes r)
  end.

(** The number of strings of a list that are empty or all whitespace. *)
Definition countBlank (args : list string) : Z :=
  Z.of_nat (List.length (filter (allChars isSpace) args)).

(** The fields of a string: its maximal runs of bytes that are not
    whitespace (of the class [\s]), from left to right. *)
Definition startsGraphic (s : string) : bool :=
  match s with
  | EmptyString => false
  | String c _ => negb (isSpace c)
  end.

Fixpoint fields (s : string) : list string :=
  match s with
  | EmptyString => []
  | String c r =>
      if isSpace c then fields r
      else match fields r with
           | [] => [String c ""]
           | w :: rest =>
               if startsGraphic r then String c w :: rest
               else String c "" :: w :: rest
           end
  end.

(** * Proofs *)

(** ** Strings: lengths, indexing and slicing *)

Section StringFacts.

Lemma len_nil : len "" = 0.
Proof. reflexivity. Qed.

Lemma len_cons (c : ascii) (s : string) : len (String c s) = 1 + len s.
Proof. unfold len. simpl String.length. lia. Qed.

Lemma len_nonneg (s : string) : 0 <= len s.
Proof. unfold len. lia. Qed.

Lemma len_app (a b : string) : len (a ++ b) = len a + len b.
Proof.
  induction a as [|c a IH]; simpl append.
  - rewrite len_nil. lia.
  - rewrite !len_cons, IH. lia.
Qed.

Lemma app_nil_r (a : string) : a ++ "" = a.
Proof. induction a; simpl; congruence. Qed.

Lemma app_assoc (a b c : string) : (a ++ b) ++ c = a ++ b ++ c.
Proof. induction a; simpl; congruence. Qed.

Lemma app_eq_nil (a b : string) : a ++ b = "" -> a = "" /\ b = "".
Proof. destruct a; simpl; [auto | discriminate]. Qed.

Lemma eqb_nil_false (s : string) : s <> "" -> (s =? "")%string = false.
Proof. intros H. apply String.eqb_neq. exact H. Qed.

Lemma substring_prefix (b c : string) :
  String.substring 0 (String.length b) (b ++ c) = b.
Proof.
  induction b as [|x b IH]; simpl.
  - destruct c; reflexivity.
  - now rewrite IH.
Qed.

Lemma substring_middle (a b c : string) :
  String.substring (String.length a) (String.length b) (a ++ b ++ c) = b.
Proof.
  induction a as [|x a IH]; simpl.
  - apply substring_prefix.
  - exact IH.
Qed.

(** The slice that cuts [b] out of [a ++ b ++ c]. *)
Lemma slice_middle (a b c : string) :
  slice (a ++ b ++ c) (len a) (len a + len b) = Some b.
Proof.
  unfold slice.
  pose proof (len_nonneg a). pose proof (len_nonneg b). pose proof (len_nonneg c).
  rewrite !len_app.
  replace ((0 <=? len a) && (len a <=? len a + len b)
           && (len a + len b <=? len a + (len b + len c))) with true
    by (symmetry; rewrite !andb_true_iff, !Z.leb_le; lia).
  replace (Z.to_nat (len a)) with (String.length a) by (unfold len; lia).
  replace (Z.to_nat (len a + len b - len a)) with (String.length b) by (unfold len; lia).
  now rewrite substring_middle.
Qed.

Lemma slice_all (s : string) : slice s 0 (len s) = Some s.
Proof.
  pose proof (slice_middle "" s "") as H.
  simpl in H. rewrite app_nil_r, len_nil in H. exact H.
Qed.

Lemma slice_prefix (b c : string) : slice (b ++ c) 0 (len b) = Some b.
Proof. exact (slice_middle "" b c). Qed.

Lemma slice_suffix (a b : string) : slice (a ++ b) (len a) (len (a ++ b)) = Some b.
Proof.
  pose proof (slice_middle a b "") as H.
  rewrite app_nil_r in H. rewrite len_app. exact H.
Qed.

Lemma slice_total (s : string) (lo hi : Z) :
  0 <= lo -> lo <= hi -> hi <= len s -> exists r, slice s lo hi = Some r.
Proof.
  intros H1 H2 H3. unfold slice.
  replace ((0 <=? lo) && (lo <=? hi) && (hi <=? len s)) with true
    by (symmetry; rewrite !andb_true_iff, !Z.leb_le; lia).
  eauto.
Qed.

Lemma slice_panics (s : string) (lo hi : Z) :
  hi < lo -> slice s lo hi = None.
Proof.
  intros H. unfold slice.
  replace (lo <=? hi) with false by (symmetry; apply Z.leb_gt; lia).
  now rewrite andb_false_r.
Qed.

Lemma get_app_here (a : string) (c : ascii) (r : string) :
  String.get (String.length a) (a ++ String c r) = Some c.
Proof. induction a; simpl; auto. Qed.

Lemma index_app_here (a : string) (c : ascii) (r : string) :
  index (a ++ String c r) (len a) = Some c.
Proof.
  unfold index.
  pose proof (len_nonneg a). pose proof (len_nonneg r).
  rewrite len_app, len_cons.
  replace ((0 <=? len a) && (len a <? len a + (1 + len r))) with true
    by (symmetry; rewrite andb_true_iff, Z.leb_le, Z.ltb_lt; lia).
  replace (Z.to_nat (len a)) with (String.length a) by (unfold len; lia).
  apply get_app_here.
Qed.

Lemma index_head (c : ascii) (r : string) : index (String c r) 0 = Some c.
Proof. exact (index_app_here "" c r). Qed.

(** Every non-empty string ends in a last byte. *)
Lemma snoc_cases (s : string) :
  s = "" \/ exists t c, s = t ++ String c "".
Proof.
  induction s as [|x s IH]; [now left | right].
  destruct IH as [-> | (t & c & ->)].
  - now exists "", x.
  - now exists (String x t), c.
Qed.

End StringFacts.

(** ** The regular expression [\s+] replaced by one space *)

Section ReplaceFacts.

Lemma isSpace_blank (c : ascii) :
  isSpace c = true -> blankOrGraphic c = true -> c = " "%char.
Proof.
  unfold blankOrGraphic. intros -> H. simpl in H.
  now apply Ascii.eqb_eq.
Qed.

Lemma blank_not_space (c : ascii) :
  blankOrGraphic c = true -> (c =? " ")%char = false -> isSpace c = false.
Proof.
  unfold blankOrGraphic. intros H E. rewrite E, orb_false_r in H.
  now apply negb_true_iff.
Qed.

Lemma R_space (b : bool) (c : ascii) (r : string) :
  isSpace c = true ->
  ReplaceAllSpaceRuns " " b (String c r) = if b then ReplaceAllSpaceRuns " " true r else String " " (ReplaceAllSpaceRuns " " true r).
Proof. intros H. simpl. now rewrite H. Qed.

Lemma R_graphic (b : bool) (c : ascii) (r : string) :
  isSpace c = false -> ReplaceAllSpaceRuns " " b (String c r) = String c (ReplaceAllSpaceRuns " " false r).
Proof. intros H. simpl. now rewrite H. Qed.

(** The output only has the space U+0020 as whitespace. *)
Lemma R_blank (s : string) (b : bool) : allChars blankOrGraphic (ReplaceAllSpaceRuns " " b s) = true.
Proof.
  revert b. induction s as [|c r IH]; intros b; [reflexivity|].
  destruct (isSpace c) eqn:E.
  - rewrite R_space by exact E. destruct b; [apply IH|]. simpl. apply IH.
  - rewrite R_graphic by exact E. simpl. rewrite IH, andb_true_r.
    unfold blankOrGraphic. now rewrite E.
Qed.

(** The output has no two spaces in a row, and none at the start when the
    scan is inside a match. *)
Lemma R_runs (s : string) :
  noSpaceRun (ReplaceAllSpaceRuns " " false s) = true /\ noSpaceRun (ReplaceAllSpaceRuns " " true s) = true
  /\ noLeadingSpace (ReplaceAllSpaceRuns " " true s) = true.
Proof.
  induction s as [|c r (IH1 & IH2 & IH3)]; [now simpl|].
  destruct (isSpace c) eqn:E.
  - rewrite !R_space by exact E. repeat split; try assumption.
    destruct (ReplaceAllSpaceRuns " " true r) as [|d q] eqn:Eq; [reflexivity|].
    simpl in IH3. apply negb_true_iff in IH3.
    change (negb (isSpace " " && isSpace d) && noSpaceRun (String d q) = true).
    now rewrite IH3, IH2.
  - rewrite !R_graphic by exact E. simpl noLeadingSpace. rewrite E.
    assert (H : noSpaceRun (String c (ReplaceAllSpaceRuns " " false r)) = true).
    { destruct (ReplaceAllSpaceRuns " " false r) as [|d q] eqn:Eq; [reflexivity|].
      change (negb (isSpace c && isSpace d) && noSpaceRun (String d q) = true).
      now rewrite E, IH1. }
    now repeat split.
Qed.

Lemma R_noSpaceRun (s : string) : noSpaceRun (ReplaceAllSpaceRuns " " false s) = true.
Proof. apply R_runs. Qed.

(** A string with single spaces only is left as it is. *)
Lemma R_fixed (s : string) :
  allChars blankOrGraphic s = true -> noSpaceRun s = true ->
  ReplaceAllSpaceRuns " " false s = s /\ (noLeadingSpace s = true -> ReplaceAllSpaceRuns " " true s = s).
Proof.
  induction s as [|c r IH]; [now simpl|].
  intros Hb Hr. simpl in Hb. apply andb_true_iff in Hb as [Hc Hb].
  assert (Hr' : noSpaceRun r = true).
  { destruct r; [reflexivity|].
    change (negb (isSpace c && isSpace a) && noSpaceRun (String a r) = true) in Hr.
    now apply andb_true_iff in Hr. }
  destruct (IH Hb Hr') as [IH1 IH2].
  destruct (isSpace c) eqn:E.
  - rewrite !R_space by exact E.
    pose proof (isSpace_blank c E Hc) as ->.
    split; [|simpl; discriminate].
    f_equal. apply IH2.
    destruct r as [|d q]; [reflexivity|].
    change (negb (isSpace " " && isSpace d) && noSpaceRun (String d q) = true) in Hr.
    apply andb_true_iff in Hr as [Hr _]. simpl in Hr. exact Hr.
  - rewrite !R_graphic by exact E. rewrite IH1. now split.
Qed.

(** Inside a match, the output is empty exactly on whitespace. *)
Lemma R_allSpace (s : string) :
  allChars isSpace s = true -> ReplaceAllSpaceRuns " " true s = "" /\ (ReplaceAllSpaceRuns " " false s = "" \/ ReplaceAllSpaceRuns " " false s = " ").
Proof.
  induction s as [|c r IH]; [simpl; auto|].
  simpl allChars. intros H. apply andb_true_iff in H as [Hc Hr].
  destruct (IH Hr) as [IH1 _].
  rewrite !R_space by exact Hc. rewrite IH1. auto.
Qed.

Lemma R_onlySpaces (s : string) (b : bool) :
  allChars (fun c => (c =? " ")%char) (ReplaceAllSpaceRuns " " b s) = true -> allChars isSpace s = true.
Proof.
  revert b. induction s as [|c r IH]; intros b H; [reflexivity|].
  simpl allChars. destruct (isSpace c) eqn:E.
  - rewrite R_space in H by exact E. simpl. destruct b.
    + now apply IH in H.
    + simpl in H. now apply IH in H.
  - rewrite R_graphic in H by exact E. simpl in H.
    apply andb_true_iff in H as [H _]. apply Ascii.eqb_eq in H. subst c.
    discriminate E.
Qed.

End ReplaceFacts.

(** ** The maximal runs of a string *)

Section RunsFacts.

Lemma runs_cons (c : ascii) (r : string) :
  runs (String c r) =
  match runs r with
  | (k, w) :: rest =>
      if Bool.eqb k (isSpace c) then (k, String c w) :: rest
      else (isSpace c, String c "") :: (k, w) :: rest
  | [] => [(isSpace c, String c "")]
  end.
Proof. reflexivity. Qed.

Lemma runs_head (c : ascii) (r : string) :
  exists w rest, runs (String c r) = (isSpace c, String c w) :: rest.
Proof.
  rewrite runs_cons. destruct (runs r) as [|[k w] rest]; [eauto|].
  destruct (Bool.eqb k (isSpace c)) eqn:E; [|eauto].
  apply eqb_prop in E. subst k. eauto.
Qed.

(** The runs, put end to end, are the string. *)
Lemma runs_join (s : string) : joinRuns (map snd (runs s)) = s.
Proof.
  induction s as [|c r IH]; [reflexivity|].
  rewrite runs_cons. destruct (runs r) as [|[k w] rest].
  - simpl in *. now rewrite <- IH.
  - destruct (Bool.eqb k (isSpace c)); simpl in *; now rewrite IH.
Qed.

(** Each run is non-empty and of one kind. *)
Lemma runs_kind (s : string) : forallb runOfKind (runs s) = true.
Proof.
  induction s as [|c r IH]; [reflexivity|].
  rewrite runs_cons. destruct (runs r) as [|[k w] rest].
  - unfold runOfKind. simpl. now rewrite eqb_reflx.
  - simpl in IH. apply andb_true_iff in IH as [Hk Hrest].
    unfold runOfKind in Hk. simpl in Hk. apply andb_true_iff in Hk as [Hne Hk].
    destruct (Bool.eqb k (isSpace c)) eqn:E.
    + apply eqb_prop in E. subst k. cbn [forallb]. rewrite Hrest, andb_true_r.
      unfold runOfKind. cbn [fst snd allChars String.eqb negb andb].
      now rewrite eqb_reflx, Hk.
    + cbn [forallb]. rewrite Hrest, andb_true_r.
      unfold runOfKind. cbn [fst snd allChars String.eqb negb andb].
      rewrite eqb_reflx, Hk.
      destruct w; [simpl in Hne; discriminate Hne | reflexivity].
Qed.

(** Each run is maximal. *)
Lemma runs_alternating (s : string) : alternating (runs s) = true.
Proof.
  induction s as [|c r IH]; [reflexivity|].
  rewrite runs_cons. destruct (runs r) as [|[k w] rest]; [reflexivity|].
  destruct (Bool.eqb k (isSpace c)) eqn:E.
  - destruct rest as [|r2 rest]; [reflexivity|]. exact IH.
  - change (negb (Bool.eqb (isSpace c) k) && alternating ((k, w) :: rest) = true).
    rewrite IH, andb_true_r. apply negb_true_iff.
    destruct (isSpace c), k; simpl in *; congruence.
Qed.

(** Replacing every run of whitespace by one space is what the regular
    expression does. *)
Lemma collapse_runs (s : string) :
  joinRuns (map collapseRun (runs s)) = reWhitespace_ReplaceAllString s " ".
Proof.
  unfold reWhitespace_ReplaceAllString.
  induction s as [|c r IH]; [reflexivity|].
  destruct r as [|d q].
  - simpl. unfold collapseRun. simpl. destruct (isSpace c); reflexivity.
  - rewrite runs_cons.
    destruct (runs_head d q) as (w & rest & Hd). rewrite Hd in IH |- *.
    destruct (isSpace c) eqn:Ec, (isSpace d) eqn:Ed; simpl Bool.eqb; cbv iota.
    + rewrite (R_space false c) by exact Ec.
      rewrite (R_space true d) by exact Ed.
      rewrite (R_space false d) in IH by exact Ed.
      exact IH.
    + rewrite (R_space false c) by exact Ec.
      rewrite (R_graphic true d) by exact Ed.
      rewrite (R_graphic false d) in IH by exact Ed.
      simpl map. simpl joinRuns. unfold collapseRun at 1. simpl fst.
      simpl append. f_equal. exact IH.
    + rewrite (R_graphic false c) by exact Ec.
      simpl map. simpl joinRuns. unfold collapseRun at 1. simpl fst. simpl snd.
      simpl append. f_equal. exact IH.
    + rewrite (R_graphic false c) by exact Ec.
      simpl map in IH |- *. simpl joinRuns in IH |- *.
      unfold collapseRun at 1. unfold collapseRun at 1 in IH.
      simpl fst in *. simpl snd in *. simpl append. f_equal. exact IH.
Qed.

End RunsFacts.

(** ** Trimming *)

Section TrimFacts.

Lemma noSpaceRun_cons (c : ascii) (r : string) :
  noSpaceRun (String c r) =
  match r with
  | EmptyString => true
  | String d _ => negb (isSpace c && isSpace d)
  end && noSpaceRun r.
Proof. destruct r; reflexivity. Qed.

Lemma noSpaceRun_tail (c : ascii) (r : string) :
  noSpaceRun (String c r) = true -> noSpaceRun r = true.
Proof. rewrite noSpaceRun_cons. intros H. now apply andb_true_iff in H. Qed.

Lemma noSpaceRun_after_space (r : string) :
  noSpaceRun (String " " r) = true -> noLeadingSpace r = true.
Proof.
  rewrite noSpaceRun_cons. destruct r as [|d q]; [reflexivity|].
  intros H. apply andb_true_iff in H as [H _]. exact H.
Qed.

Lemma noLeadingSpace_strip (r : string) :
  noLeadingSpace r = true -> stripLeadingSpaces r = r.
Proof.
  destruct r as [|d q]; [reflexivity|]. simpl. intros H.
  destruct (Ascii.eqb_spec d " ") as [-> | _]; [discriminate H | reflexivity].
Qed.

(** Without runs of spaces, at most one leading space is removed. *)
Lemma stripLeading_one (r : string) :
  noSpaceRun r = true ->
  stripLeadingSpaces r =
  match r with
  | EmptyString => ""
  | String c q => if (c =? " ")%char then q else r
  end.
Proof.
  destruct r as [|c q]; [reflexivity|]. intros H. simpl.
  destruct (Ascii.eqb_spec c " ") as [-> | _]; [|reflexivity].
  apply noLeadingSpace_strip. now apply noSpaceRun_after_space.
Qed.

Lemma stripTrailing_snoc (t : string) (c : ascii) :
  stripTrailingSpaces (t ++ String c "") =
  if (c =? " ")%char then stripTrailingSpaces t else t ++ String c "".
Proof.
  induction t as [|x t IH]; [reflexivity|].
  simpl. rewrite IH. destruct (c =? " ")%char; [reflexivity|].
  destruct t; reflexivity.
Qed.

(** A string that can be followed by a space without making a run does not
    end in a space. *)
Lemma stripTrailing_before_space (t : string) :
  noSpaceRun (t ++ " ") = true -> stripTrailingSpaces t = t.
Proof.
  induction t as [|x t IH]; [reflexivity|].
  simpl append. intros H. pose proof (noSpaceRun_tail _ _ H) as H'.
  simpl. rewrite (IH H'). destruct t as [|y t]; [|reflexivity].
  simpl in H. rewrite andb_true_r in H. apply negb_true_iff in H.
  rewrite andb_true_r in H.
  destruct (Ascii.eqb_spec x " ") as [-> | _]; [discriminate H | reflexivity].
Qed.

Lemma stripTrailing_head (r : string) (d : ascii) (q : string) :
  stripTrailingSpaces r = String d q -> exists q', r = String d q'.
Proof.
  destruct r as [|c r]; simpl; [discriminate|].
  destruct (stripTrailingSpaces r).
  - destruct (c =? " ")%char; [discriminate|]. intros [= -> _]. eauto.
  - intros [= -> _]. eauto.
Qed.

Lemma stripTrailing_allChars (p : ascii -> bool) (r : string) :
  allChars p r = true -> allChars p (stripTrailingSpaces r) = true.
Proof.
  induction r as [|c r IH]; [reflexivity|].
  simpl. intros H. apply andb_true_iff in H as [Hc Hr]. specialize (IH Hr).
  destruct (stripTrailingSpaces r).
  - destruct (c =? " ")%char; [reflexivity|]. simpl. now rewrite Hc.
  - simpl in *. now rewrite Hc, IH.
Qed.

Lemma stripTrailing_noSpaceRun (r : string) :
  noSpaceRun r = true -> noSpaceRun (stripTrailingSpaces r) = true.
Proof.
  induction r as [|c r IH]; [reflexivity|].
  intros H. pose proof (noSpaceRun_tail _ _ H) as Hr. specialize (IH Hr).
  simpl. destruct (stripTrailingSpaces r) as [|d q] eqn:E.
  - destruct (c =? " ")%char; reflexivity.
  - destruct (stripTrailing_head _ _ _ E) as [q' ->].
    rewrite noSpaceRun_cons in H |- *. apply andb_true_iff in H as [H _].
    now rewrite H, IH.
Qed.

Lemma stripTrailing_noLeading (r : string) :
  noLeadingSpace r = true -> noLeadingSpace (stripTrailingSpaces r) = true.
Proof.
  destruct r as [|c r]; [reflexivity|]. simpl. intros H.
  destruct (stripTrailingSpaces r); [|exact H].
  destruct (c =? " ")%char; [reflexivity | exact H].
Qed.

Lemma stripTrailing_noTrailing (r : string) :
  allChars blankOrGraphic r = true -> noTrailingSpace (stripTrailingSpaces r) = true.
Proof.
  induction r as [|c r IH]; [reflexivity|].
  simpl. intros H. apply andb_true_iff in H as [Hc Hr]. specialize (IH Hr).
  destruct (stripTrailingSpaces r) as [|d q].
  - destruct (c =? " ")%char eqn:E; [reflexivity|]. simpl.
    now rewrite (blank_not_space c Hc E).
  - exact IH.
Qed.

Lemma stripTrailing_fixed (r : string) :
  noTrailingSpace r = true -> stripTrailingSpaces r = r.
Proof.
  induction r as [|c r IH]; [reflexivity|].
  simpl. destruct r as [|d q].
  - intros H. simpl.
    destruct (Ascii.eqb_spec c " ") as [-> | _]; [discriminate H | reflexivity].
  - intros H. now rewrite (IH H).
Qed.

Lemma stripTrailing_nil (r : string) :
  stripTrailingSpaces r = "" -> allChars (fun c => (c =? " ")%char) r = true.
Proof.
  induction r as [|c r IH]; [reflexivity|].
  simpl. destruct (stripTrailingSpaces r); [|discriminate].
  destruct (c =? " ")%char; [|discriminate]. intros _. now apply IH.
Qed.

Lemma stripLeading_nil (r : string) :
  allChars (fun c => (c =? " ")%char) (stripLeadingSpaces r) = true ->
  allChars (fun c => (c =? " ")%char) r = true.
Proof.
  induction r as [|c r IH]; [reflexivity|].
  simpl. destruct (c =? " ")%char eqn:E; [exact IH|].
  simpl. now rewrite E.
Qed.

Lemma stripLeading_allChars (p : ascii -> bool) (r : string) :
  allChars p r = true -> allChars p (stripLeadingSpaces r) = true.
Proof.
  induction r as [|c r IH]; [reflexivity|].
  simpl. intros H. destruct (c =? " ")%char; [|exact H].
  apply andb_true_iff in H as [_ H]. now apply IH.
Qed.

Lemma stripLeading_noSpaceRun (r : string) :
  noSpaceRun r = true -> noSpaceRun (stripLeadingSpaces r) = true.
Proof.
  induction r as [|c r IH]; [reflexivity|].
  intros H. simpl. destruct (c =? " ")%char; [|exact H].
  apply IH. now apply noSpaceRun_tail in H.
Qed.

Lemma stripLeading_noLeading (r : string) :
  allChars blankOrGraphic r = true -> noLeadingSpace (stripLeadingSpaces r) = true.
Proof.
  induction r as [|c r IH]; [reflexivity|].
  simpl. intros H. apply andb_true_iff in H as [Hc Hr].
  destruct (c =? " ")%char eqn:E; [now apply IH|].
  simpl. now rewrite (blank_not_space c Hc E).
Qed.

End TrimFacts.

(** ** CleanString returns, and returns the normal form *)

Section CleanStringFacts.

Lemma index_last (t : string) (c : ascii) :
  index (t ++ String c "") (len (t ++ String c "") - 1) = Some c.
Proof.
  replace (len (t ++ String c "") - 1) with (len t)
    by (rewrite len_app, len_cons, len_nil; lia).
  apply index_app_here.
Qed.

Lemma slice_init (t : string) (c : ascii) :
  slice (t ++ String c "") 0 (len (t ++ String c "") - 1) = Some t.
Proof.
  replace (len (t ++ String c "") - 1) with (len t)
    by (rewrite len_app, len_cons, len_nil; lia).
  apply slice_prefix.
Qed.

Lemma slice_tail (x : ascii) (b : string) :
  slice (String x b) 1 (len (String x b)) = Some b.
Proof. exact (slice_suffix (String x "") b). Qed.

Lemma slice_inner (x : ascii) (t : string) (c : ascii) :
  slice (String x (t ++ String c "")) 1 (len (String x (t ++ String c "")) - 1) = Some t.
Proof.
  replace (len (String x (t ++ String c "")) - 1) with (len (String x "") + len t)
    by (rewrite !len_cons, len_app, len_cons, len_nil; lia).
  exact (slice_middle (String x "") t (String c "")).
Qed.

(** The index arithmetic of CleanString on a string without runs of spaces:
    no panic, and the result is the string without its leading and trailing
    space. *)
Lemma CleanString_trim (r : string) :
  noSpaceRun r = true ->
  (if len r >? 0 then
     c0 <- index r 0 ;;
     if (c0 =? " ")%char && (len r =? 1) then ret ""
     else
       cl <- index r (len r - 1) ;;
       slice r (if (c0 =? " ")%char then 0 + 1 else 0)
               (if (cl =? " ")%char then len r - 1 else len r)
   else slice r 0 (len r))
  = Some (stripTrailingSpaces (stripLeadingSpaces r)).
Proof.
  intros Hr. rewrite (stripLeading_one r Hr).
  destruct r as [|c0 q].
  - reflexivity.
  - replace (len (String c0 q) >? 0) with true
      by (symmetry; apply Z.gtb_lt; rewrite len_cons; pose proof (len_nonneg q); lia).
    rewrite index_head. cbn [bind].
    destruct (Ascii.eqb_spec c0 " ") as [-> | Hc0].
    + destruct (snoc_cases q) as [-> | (t & c & ->)]; [reflexivity|].
      replace (len (String " " (t ++ String c "")) =? 1) with false
        by (symmetry; apply Z.eqb_neq;
            rewrite len_cons, len_app, len_cons, len_nil; pose proof (len_nonneg t); lia).
      cbn [andb].
      change (String " " (t ++ String c "")) with (String " " t ++ String c "") at 1 2.
      rewrite index_last. cbn [bind]. change (0 + 1) with 1.
      change (String " " t ++ String c "") with (String " " (t ++ String c "")).
      rewrite stripTrailing_snoc.
      destruct (Ascii.eqb_spec c " ") as [-> | Hc].
      * rewrite slice_inner. f_equal. symmetry.
        apply stripTrailing_before_space. now apply noSpaceRun_tail in Hr.
      * now rewrite slice_tail.
    + cbn [andb].
      destruct (snoc_cases (String c0 q)) as [E | (t & c & E)]; [discriminate E|].
      rewrite E in Hr |- *. rewrite index_last. cbn [bind].
      rewrite stripTrailing_snoc.
      destruct (Ascii.eqb_spec c " ") as [-> | Hc].
      * rewrite slice_init. f_equal. symmetry.
        now apply stripTrailing_before_space.
      * now rewrite slice_all.
Qed.

(** CleanString never panics and computes what the specification says. *)
Lemma CleanString_spec (s : string) : CleanString s = Some (spec_CleanString s).
Proof.
  unfold CleanString, spec_CleanString. rewrite collapse_runs.
  cbv zeta. apply CleanString_trim.
  unfold reWhitespace_ReplaceAllString. apply R_noSpaceRun.
Qed.

Lemma spec_CleanString_normalized (s : string) :
  normalized (spec_CleanString s) = true.
Proof.
  unfold spec_CleanString. rewrite collapse_runs.
  unfold reWhitespace_ReplaceAllString.
  pose proof (R_blank s false) as Hb. pose proof (R_noSpaceRun s) as Hr.
  unfold normalized. rewrite !andb_true_iff. repeat split.
  - apply stripTrailing_noLeading. now apply stripLeading_noLeading.
  - apply stripTrailing_noTrailing. now apply stripLeading_allChars.
  - apply stripTrailing_noSpaceRun. now apply stripLeading_noSpaceRun.
  - apply stripTrailing_allChars. now apply stripLeading_allChars.
Qed.

Lemma spec_CleanString_fixed (s : string) :
  normalized s = true -> spec_CleanString s = s.
Proof.
  unfold normalized. rewrite !andb_true_iff. intros [[[H1 H2] H3] H4].
  unfold spec_CleanString. rewrite collapse_runs.
  unfold reWhitespace_ReplaceAllString.
  destruct (R_fixed s H4 H3) as [-> _].
  rewrite (noLeadingSpace_strip s H1). now apply stripTrailing_fixed.
Qed.

Lemma spec_CleanString_idempotent (s : string) :
  spec_CleanString (spec_CleanString s) = spec_CleanString s.
Proof. apply spec_CleanString_fixed, spec_CleanString_normalized. Qed.

(** The normal form is empty exactly for the strings of whitespace. *)
Lemma spec_CleanString_nil (s : string) :
  spec_CleanString s = "" <-> allChars isSpace s = true.
Proof.
  unfold spec_CleanString. rewrite collapse_runs.
  unfold reWhitespace_ReplaceAllString. split.
  - intros H. apply stripTrailing_nil, stripLeading_nil in H.
    now apply R_onlySpaces in H.
  - intros H. destruct (R_allSpace s H) as [_ [-> | ->]]; reflexivity.
Qed.

End CleanStringFacts.

(** ** The constructors *)

Section ConstructorFacts.

Lemma uint16_small (z : Z) : 0 <= z < 65536 -> uint16 z = z.
Proof. intros H. unfold uint16. now apply Z.mod_small. Qed.

Lemma uint16_range (z : Z) : 0 <= uint16 z < 65536.
Proof. unfold uint16. apply Z.mod_pos_bound. lia. Qed.

Lemma uint16_exact (z : Z) : 0 <= z -> (uint16 z = z <-> z < 65536).
Proof.
  intros H. split.
  - intros E. pose proof (uint16_range z). lia.
  - intros L. apply uint16_small. lia.
Qed.

Lemma NewName1_eq (t : string) :
  NewName1 t =
  Some (if (spec_CleanString t =? "")%string
        then (zeroName, Some (EmptyPartError 1 t "" ""))
        else (mkName t 0 (uint16 (len t)), None)).
Proof.
  unfold NewName1. rewrite CleanString_spec. cbn [bind].
  destruct (spec_CleanString t =? "")%string; reflexivity.
Qed.

Lemma NewName2_eq (f s : string) :
  NewName2 f s =
  Some (if (spec_CleanString f =? "")%string || (spec_CleanString s =? "")%string
        then (zeroName, Some (EmptyPartError 2 f s ""))
        else (mkName (spec_CleanString f ++ " " ++ spec_CleanString s)
                     (uint16 (len (spec_CleanString f) + 1))
                     (uint16 (len (spec_CleanString f ++ " " ++ spec_CleanString s))),
              None)).
Proof.
  unfold NewName2. rewrite !CleanString_spec. cbn [bind].
  destruct ((spec_CleanString f =? "")%string || (spec_CleanString s =? "")%string);
    reflexivity.
Qed.

Lemma NewName3_eq (f s g : string) :
  NewName3 f s g =
  Some (if (spec_CleanString f =? "")%string || (spec_CleanString s =? "")%string
           || (spec_CleanString g =? "")%string
        then (zeroName, Some (EmptyPartError 3 f s g))
        else (mkName ((spec_CleanString f ++ " " ++ spec_CleanString s)
                      ++ " " ++ spec_CleanString g)
                     (uint16 (len (spec_CleanString f) + 1))
                     (uint16 (len (spec_CleanString f ++ " " ++ spec_CleanString s))),
              None)).
Proof.
  unfold NewName3. rewrite !CleanString_spec. cbn [bind].
  destruct ((spec_CleanString f =? "")%string || (spec_CleanString s =? "")%string
            || (spec_CleanString g =? "")%string); reflexivity.
Qed.

(** What a successful call returns. *)

Lemma NewName1_success (t : string) (n : Name) :
  NewName1 t = Some (n, None) ->
  spec_CleanString t <> "" /\ n = mkName t 0 (uint16 (len t)).
Proof.
  rewrite NewName1_eq.
  destruct (String.eqb_spec (spec_CleanString t) "") as [E | E]; [discriminate|].
  intros [= <-]. now split.
Qed.

Lemma NewName2_success (f s : string) (n : Name) :
  NewName2 f s = Some (n, None) ->
  spec_CleanString f <> "" /\ spec_CleanString s <> "" /\
  n = mkName (spec_CleanString f ++ " " ++ spec_CleanString s)
             (uint16 (len (spec_CleanString f) + 1))
             (uint16 (len (spec_CleanString f ++ " " ++ spec_CleanString s))).
Proof.
  rewrite NewName2_eq.
  destruct (String.eqb_spec (spec_CleanString f) "") as [E | E]; [discriminate|].
  destruct (String.eqb_spec (spec_CleanString s) "") as [E' | E']; [discriminate|].
  intros [= <-]. now repeat split.
Qed.

Lemma NewName3_success (f s g : string) (n : Name) :
  NewName3 f s g = Some (n, None) ->
  spec_CleanString f <> "" /\ spec_CleanString s <> "" /\ spec_CleanString g <> "" /\
  n = mkName ((spec_CleanString f ++ " " ++ spec_CleanString s)
              ++ " " ++ spec_CleanString g)
             (uint16 (len (spec_CleanString f) + 1))
             (uint16 (len (spec_CleanString f ++ " " ++ spec_CleanString s))).
Proof.
  rewrite NewName3_eq.
  destruct (String.eqb_spec (spec_CleanString f) "") as [E | E]; [discriminate|].
  destruct (String.eqb_spec (spec_CleanString s) "") as [E' | E']; [discriminate|].
  destruct (String.eqb_spec (spec_CleanString g) "") as [E'' | E'']; [discriminate|].
  intros [= <-]. now repeat split.
Qed.

Lemma spec_CleanString_nonempty_arg (t : string) :
  spec_CleanString t <> "" -> t <> "".
Proof. intros H ->. now apply H. Qed.

(** A constructed Name has a text. *)
Lemma Constructed_text (n : Name) : Constructed n -> text n <> "".
Proof.
  intros [t n' H | f s n' H | f s g n' H].
  - apply NewName1_success in H as [H ->]. simpl.
    now apply spec_CleanString_nonempty_arg.
  - apply NewName2_success in H as (H & _ & ->). simpl.
    intros E. apply app_eq_nil in E as [E _]. contradiction.
  - apply NewName3_success in H as (H & _ & _ & ->). simpl.
    intros E. apply app_eq_nil in E as [E _]. apply app_eq_nil in E as [E _].
    contradiction.
Qed.

End ConstructorFacts.

(** ** The accessors on the three shapes of Name *)

Section AccessorFacts.

Variables F S G : string.

Lemma len_text2 : len (F ++ " " ++ S) = len F + 1 + len S.
Proof. rewrite len_app. simpl append. rewrite len_cons. lia. Qed.

Lemma len_text3 :
  len ((F ++ " " ++ S) ++ " " ++ G) = len F + 1 + len S + 1 + len G.
Proof. rewrite len_app, len_text2. simpl append. rewrite len_cons. lia. Qed.

Lemma slice_fore2 : slice (F ++ " " ++ S) 0 (len F) = Some F.
Proof. apply slice_prefix. Qed.

Lemma slice_sur2 : slice (F ++ " " ++ S) (len F + 1) (len (F ++ " " ++ S)) = Some S.
Proof.
  pose proof (slice_suffix (F ++ " ") S) as H.
  rewrite app_assoc in H. rewrite len_app in H at 1.
  exact H.
Qed.

Lemma slice_fore3 : slice ((F ++ " " ++ S) ++ " " ++ G) 0 (len F) = Some F.
Proof. rewrite app_assoc. apply slice_prefix. Qed.

Lemma slice_sur3 :
  slice ((F ++ " " ++ S) ++ " " ++ G) (len F + 1) (len (F ++ " " ++ S)) = Some S.
Proof.
  assert (E : (F ++ " " ++ S) ++ " " ++ G = (F ++ " ") ++ S ++ (" " ++ G))
    by (now rewrite !app_assoc).
  rewrite E, len_text2.
  replace (len F + 1) with (len (F ++ " ")) by (rewrite len_app; reflexivity).
  apply slice_middle.
Qed.

Lemma slice_gen3 :
  slice ((F ++ " " ++ S) ++ " " ++ G) (len (F ++ " " ++ S) + 1)
        (len ((F ++ " " ++ S) ++ " " ++ G)) = Some G.
Proof.
  pose proof (slice_suffix ((F ++ " " ++ S) ++ " ") G) as H.
  rewrite app_assoc in H. rewrite len_app in H at 1. exact H.
Qed.

End AccessorFacts.

Section ShapeFacts.

Lemma eqb_false (a b : Z) : a <> b -> (a =? b) = false.
Proof. apply Z.eqb_neq. Qed.

(** One-part shape, as the code stores it: the text as given. *)
Lemma one_part_accessors (t : string) :
  t <> "" ->
  let n := mkName t 0 (uint16 (len t)) in
  Common n = Some t /\ FileAs n = Some t /\ Forename n = Some "" /\
  Generation n = Some "" /\ NumParts n = Some 1 /\ Name_String n = Some t /\
  (exists r, Surname n = Some r) /\
  (len t < 65536 -> Surname n = Some t /\ offsetsOrdered n).
Proof.
  intros Ht n. subst n.
  unfold Common, FileAs, Forename, Generation, NumParts, Name_String, Surname.
  cbn [text boSurname eoSurname]. rewrite !Z.eqb_refl.
  rewrite (eqb_nil_false t Ht).
  pose proof (uint16_range (len t)) as Hr.
  assert (Hle : uint16 (len t) <= len t).
  { unfold uint16. apply Z.mod_le; [apply len_nonneg | lia]. }
  pose proof (len_nonneg t) as Hn.
  repeat (split; [reflexivity|]). split.
  - apply slice_total; lia.
  - intros Hlen. rewrite uint16_small by lia. split; [apply slice_all|].
    unfold offsetsOrdered. cbn [text boSurname eoSurname]. lia.
Qed.

(** Two-part shape with a text shorter than 64 KiB. *)
Lemma two_part_accessors (F S : string) :
  len (F ++ " " ++ S) < 65536 ->
  let n := mkName (F ++ " " ++ S) (uint16 (len F + 1))
                  (uint16 (len (F ++ " " ++ S))) in
  FileAs n = Some (S ++ ", " ++ F) /\ Surname n = Some S /\ Forename n = Some F /\
  Generation n = Some "" /\ NumParts n = Some 2 /\ offsetsOrdered n.
Proof.
  intros Hlen n. subst n.
  pose proof (len_text2 F S) as HT.
  pose proof (len_nonneg F) as HF. pose proof (len_nonneg S) as HS.
  unfold FileAs, Surname, Forename, Generation, NumParts, offsetsOrdered, slice_to.
  cbn [text boSurname eoSurname].
  rewrite (uint16_small (len F + 1)) by lia.
  rewrite (uint16_small (len (F ++ " " ++ S))) by lia.
  rewrite (eqb_false (len F + 1) 0) by lia.
  rewrite Z.eqb_refl, Z.ltb_irrefl.
  replace (len F + 1 - 1) with (len F) by lia.
  rewrite (uint16_small (len F)) by lia.
  rewrite slice_sur2, slice_fore2. cbn [bind].
  repeat split; try reflexivity; lia.
Qed.

(** Three-part shape with a text shorter than 64 KiB. *)
Lemma three_part_accessors (F S G : string) :
  len ((F ++ " " ++ S) ++ " " ++ G) < 65536 ->
  let n := mkName ((F ++ " " ++ S) ++ " " ++ G) (uint16 (len F + 1))
                  (uint16 (len (F ++ " " ++ S))) in
  FileAs n = Some (S ++ ", " ++ F ++ " " ++ G) /\ Surname n = Some S /\
  Forename n = Some F /\ Generation n = Some G /\ NumParts n = Some 3 /\
  offsetsOrdered n.
Proof.
  intros Hlen n. subst n.
  pose proof (len_text3 F S G) as HT3. pose proof (len_text2 F S) as HT.
  pose proof (len_nonneg F) as HF. pose proof (len_nonneg S) as HS.
  pose proof (len_nonneg G) as HG.
  unfold FileAs, Surname, Forename, Generation, NumParts, offsetsOrdered,
    slice_to, slice_from.
  cbn [text boSurname eoSurname].
  rewrite (uint16_small (len F + 1)) by lia.
  rewrite (uint16_small (len (F ++ " " ++ S))) by lia.
  rewrite (uint16_small (len ((F ++ " " ++ S) ++ " " ++ G))) by lia.
  rewrite (uint16_small (len (F ++ " " ++ S) + 1)) by lia.
  rewrite (eqb_false (len F + 1) 0) by lia.
  rewrite (eqb_false (len (F ++ " " ++ S)) (len ((F ++ " " ++ S) ++ " " ++ G))) by lia.
  replace (len (F ++ " " ++ S) <? len ((F ++ " " ++ S) ++ " " ++ G)) with true
    by (symmetry; apply Z.ltb_lt; lia).
  replace (len F + 1 - 1) with (len F) by lia.
  rewrite (uint16_small (len F)) by lia.
  rewrite slice_sur3, slice_fore3, slice_gen3. cbn [bind].
  repeat split; try lia; try reflexivity.
  unfold ret. f_equal. now rewrite !app_assoc.
Qed.

Lemma zero_accessors :
  Common zeroName = Some "" /\ FileAs zeroName = Some "" /\
  Surname zeroName = Some "" /\ Forename zeroName = Some "" /\
  Generation zeroName = Some "" /\ NumParts zeroName = Some 0 /\
  Name_String zeroName = Some "".
Proof. repeat split; reflexivity. Qed.

(** NumParts never panics, and only the zero value has no part. *)
Lemma NumParts_Constructed (n : Name) :
  Constructed n -> exists k, NumParts n = Some k /\ 1 <= k <= 3.
Proof.
  intros H. apply Constructed_text in H. unfold NumParts.
  rewrite (eqb_nil_false _ H).
  destruct (boSurname n =? 0); [exists 1; split; [reflexivity | lia]|].
  destruct (eoSurname n =? uint16 (len (text n)));
    [exists 2 | exists 3]; (split; [reflexivity | lia]).
Qed.

End ShapeFacts.

(** ** Joining normalized parts with one space *)

Section JoinFacts.

Lemma allChars_app (p : ascii -> bool) (a b : string) :
  allChars p (a ++ b) = allChars p a && allChars p b.
Proof.
  induction a as [|x a IH]; [reflexivity|].
  simpl. now rewrite IH, andb_assoc.
Qed.

Lemma noLeadingSpace_app (a b : string) :
  a <> "" -> noLeadingSpace (a ++ b) = noLeadingSpace a.
Proof. destruct a; [contradiction | reflexivity]. Qed.

Lemma noTrailingSpace_app (a b : string) :
  b <> "" -> noTrailingSpace (a ++ b) = noTrailingSpace b.
Proof.
  intros Hb. induction a as [|x a IH]; [reflexivity|].
  simpl append. simpl noTrailingSpace.
  destruct (a ++ b) eqn:E; [|exact IH].
  apply app_eq_nil in E as [_ E]. contradiction.
Qed.

Lemma noTrailingSpace_tail (x : ascii) (a : string) :
  a <> "" -> noTrailingSpace (String x a) = noTrailingSpace a.
Proof. destruct a; [contradiction | reflexivity]. Qed.

Lemma noSpaceRun_join (a b : string) :
  noSpaceRun a = true -> noTrailingSpace a = true ->
  noLeadingSpace b = true -> noSpaceRun b = true ->
  noSpaceRun (a ++ " " ++ b) = true.
Proof.
  intros Ha Ht Hl Hb. induction a as [|x a IH].
  - simpl append. rewrite noSpaceRun_cons, Hb, andb_true_r.
    destruct b as [|d q]; [reflexivity|]. exact Hl.
  - pose proof (noSpaceRun_tail _ _ Ha) as Ha'.
    destruct a as [|y a].
    + simpl in Ht. apply negb_true_iff in Ht.
      change (negb (isSpace x && isSpace " ") && noSpaceRun ("" ++ " " ++ b) = true).
      rewrite Ht. exact (IH eq_refl eq_refl).
    + change (negb (isSpace x && isSpace y)
              && noSpaceRun (String y a ++ " " ++ b) = true).
      change (negb (isSpace x && isSpace y) && noSpaceRun (String y a) = true) in Ha.
      apply andb_true_iff in Ha as [Hx _]. rewrite Hx.
      exact (IH Ha' Ht).
Qed.

(** Two non-empty normalized parts joined by one space are normalized. *)
Lemma normalized_join (a b : string) :
  normalized a = true -> normalized b = true -> a <> "" -> b <> "" ->
  normalized (a ++ " " ++ b) = true.
Proof.
  unfold normalized. rewrite !andb_true_iff.
  intros [[[A1 A2] A3] A4] [[[B1 B2] B3] B4] Ha Hb. repeat split.
  - now rewrite noLeadingSpace_app.
  - rewrite noTrailingSpace_app by discriminate.
    simpl append. now rewrite noTrailingSpace_tail.
  - now apply noSpaceRun_join.
  - rewrite !allChars_app, A4, B4. reflexivity.
Qed.

Lemma normalized_parts (s : string) :
  normalized s = true ->
  noLeadingSpace s = true /\ noTrailingSpace s = true /\ noSpaceRun s = true.
Proof.
  unfold normalized. rewrite !andb_true_iff. tauto.
Qed.

Lemma isLower_spec (c : ascii) : isLower c = true <-> lowercaseLetter c.
Proof.
  unfold isLower, lowercaseLetter.
  rewrite andb_true_iff, !Z.leb_le. unfold nat_of_ascii. lia.
Qed.

Lemma MatchString_spec (s : string) :
  reRelator_MatchString s = true <-> threeLowercaseLetters s.
Proof.
  unfold reRelator_MatchString, MatchThreeLower, threeLowercaseLetters. split.
  - destruct s as [|a [|b [|c [|d q]]]]; try discriminate.
    rewrite !andb_true_iff, !isLower_spec. intros [[Ha Hb] Hc].
    exists a, b, c. auto.
  - intros (a & b & c & -> & Ha & Hb & Hc).
    rewrite !andb_true_iff, !isLower_spec. auto.
Qed.

End JoinFacts.

(** ** Long strings *)

Section ReplicateFacts.

Lemma replicate_succ (n : Z) (c : ascii) :
  0 <= n -> replicate (n + 1) c = String c (replicate n c).
Proof.
  intros H. unfold replicate.
  replace (Z.to_nat (n + 1)) with (S (Z.to_nat n)) by lia. reflexivity.
Qed.

Lemma len_replicate (n : Z) (c : ascii) : 0 <= n -> len (replicate n c) = n.
Proof.
  intros H. unfold replicate.
  rewrite <- (Z2Nat.id n H) at 2. generalize (Z.to_nat n) as m.
  induction m as [|m IH]; [reflexivity|].
  simpl replicate_nat. rewrite len_cons, IH. lia.
Qed.

Lemma replicate_nat_graphic (m : nat) (c : ascii) :
  isSpace c = false ->
  noTrailingSpace (replicate_nat m c) = true
  /\ noSpaceRun (replicate_nat m c) = true
  /\ allChars blankOrGraphic (replicate_nat m c) = true.
Proof.
  intros Hc. induction m as [|m (IH1 & IH2 & IH3)]; [now simpl|].
  simpl replicate_nat. repeat split.
  - simpl. destruct (replicate_nat m c); [now rewrite Hc | exact IH1].
  - rewrite noSpaceRun_cons, IH2, Hc. destruct (replicate_nat m c); reflexivity.
  - simpl. rewrite IH3. unfold blankOrGraphic. now rewrite Hc.
Qed.

Lemma normalized_replicate (n : Z) (c : ascii) :
  isSpace c = false -> normalized (replicate n c) = true.
Proof.
  intros Hc. unfold normalized, replicate.
  destruct (replicate_nat_graphic (Z.to_nat n) c Hc) as (H1 & H2 & H3).
  rewrite H1, H2, H3, !andb_true_r.
  destruct (Z.to_nat n); simpl; [reflexivity | now rewrite Hc].
Qed.

Lemma spec_CleanString_replicate (n : Z) (c : ascii) :
  isSpace c = false -> spec_CleanString (replicate n c) = replicate n c.
Proof. intros Hc. now apply spec_CleanString_fixed, normalized_replicate. Qed.

Lemma replicate_nonempty (n : Z) (c : ascii) : 0 < n -> replicate n c <> "".
Proof.
  intros H E. apply (f_equal len) in E.
  rewrite len_replicate, len_nil in E; lia.
Qed.

End ReplicateFacts.

(** ** The constructors on normalized arguments, of any length *)

Section LongNameFacts.

Lemma NewName2_normalized (F S : string) :
  normalized F = true -> normalized S = true -> F <> "" -> S <> "" ->
  NewName2 F S
  = Some (mkName (F ++ " " ++ S) (uint16 (len F + 1)) (uint16 (len F + 1 + len S)),
          None).
Proof.
  intros HF HS HF0 HS0. rewrite NewName2_eq.
  rewrite (spec_CleanString_fixed F HF), (spec_CleanString_fixed S HS).
  rewrite (eqb_nil_false F HF0), (eqb_nil_false S HS0), len_text2. reflexivity.
Qed.

Lemma NewName3_normalized (F S G : string) :
  normalized F = true -> normalized S = true -> normalized G = true ->
  F <> "" -> S <> "" -> G <> "" ->
  NewName3 F S G
  = Some (mkName ((F ++ " " ++ S) ++ " " ++ G) (uint16 (len F + 1))
                 (uint16 (len F + 1 + len S)),
          None).
Proof.
  intros HF HS HG HF0 HS0 HG0. rewrite NewName3_eq.
  rewrite (spec_CleanString_fixed F HF), (spec_CleanString_fixed S HS),
    (spec_CleanString_fixed G HG).
  rewrite (eqb_nil_false F HF0), (eqb_nil_false S HS0), (eqb_nil_false G HG0),
    len_text2.
  reflexivity.
Qed.

Lemma CleanString_replicate (n : Z) (c : ascii) :
  isSpace c = false -> CleanString (replicate n c) = Some (replicate n c).
Proof. intros H. now rewrite CleanString_spec, spec_CleanString_replicate. Qed.

(** With a start offset of 0, FileAs returns the text. *)
Lemma FileAs_start_0 (t : string) (e : Z) : FileAs (mkName t 0 e) = Some t.
Proof. reflexivity. Qed.

Lemma replicate_head (n : Z) (c : ascii) :
  0 < n -> replicate n c = String c (replicate (n - 1) c).
Proof.
  intros H. rewrite <- (replicate_succ (n - 1) c) by lia.
  f_equal. lia.
Qed.

End LongNameFacts.

(** ** The tests of the package, run on the embedding *)

Section PackageTests.

(** TestCleanString *)

Example TestCleanString_runs :
  CleanString ("a     b" ++ String "010" "c   ") = Some "a b c".
Proof. reflexivity. Qed.

Example TestCleanString_empty : CleanString "" = Some "".
Proof. reflexivity. Qed.

Example TestCleanString_blank :
  CleanString (String "010" ("    " ++ String "013" "")) = Some "".
Proof. reflexivity. Qed.

Example TestCleanString_guillemets : CleanString "«»" = Some "«»".
Proof. reflexivity. Qed.

Example TestCleanString_both_ends : CleanString "  x   " = Some "x".
Proof. reflexivity. Qed.

(** TestNewName123: the table of the package comment. *)

Example TestNewName1_Baen_Books :
  NewName1 "Baen Books" = Some (mkName "Baen Books" 0 10, None)
  /\ FileAs (mkName "Baen Books" 0 10) = Some "Baen Books"
  /\ Surname (mkName "Baen Books" 0 10) = Some "Baen Books"
  /\ Forename (mkName "Baen Books" 0 10) = Some ""
  /\ Generation (mkName "Baen Books" 0 10) = Some ""
  /\ NumParts (mkName "Baen Books" 0 10) = Some 1.
Proof. repeat split; reflexivity. Qed.

Example TestNewName2_Van_Scyoc :
  NewName2 "Sydney" "Van Scyoc" = Some (mkName "Sydney Van Scyoc" 7 16, None)
  /\ FileAs (mkName "Sydney Van Scyoc" 7 16) = Some "Van Scyoc, Sydney"
  /\ Surname (mkName "Sydney Van Scyoc" 7 16) = Some "Van Scyoc"
  /\ Forename (mkName "Sydney Van Scyoc" 7 16) = Some "Sydney"
  /\ Generation (mkName "Sydney Van Scyoc" 7 16) = Some ""
  /\ NumParts (mkName "Sydney Van Scyoc" 7 16) = Some 2.
Proof. repeat split; reflexivity. Qed.

Example TestNewName3_Keith :
  NewName3 "William H.  " "      Keith" "Jr."
  = Some (mkName "William H. Keith Jr." 11 16, None)
  /\ FileAs (mkName "William H. Keith Jr." 11 16) = Some "Keith, William H. Jr."
  /\ Surname (mkName "William H. Keith Jr." 11 16) = Some "Keith"
  /\ Forename (mkName "William H. Keith Jr." 11 16) = Some "William H."
  /\ Generation (mkName "William H. Keith Jr." 11 16) = Some "Jr."
  /\ NumParts (mkName "William H. Keith Jr." 11 16) = Some 3.
Proof. repeat split; reflexivity. Qed.

(** TestNewName123Errors *)

Example TestNewName1_blank :
  NewName1 (" " ++ String "009" " ")
  = Some (zeroName, Some (EmptyPartError 1 (" " ++ String "009" " ") "" "")).
Proof. reflexivity. Qed.

Example TestNewName2_no_surname :
  NewName2 " John " "" = Some (zeroName, Some (EmptyPartError 2 " John " "" "")).
Proof. reflexivity. Qed.

(** TestRelatedName *)

Example TestRelatedName_zero :
  NewRelatedName zeroName "aut" = Some (zeroRelatedName, Some (BadName "aut")).
Proof. reflexivity. Qed.

Example TestRelatedName_bad_codes :
  map reRelator_MatchString ["Aut"; "aut."; " aut"; "aut "; " aut "; "au"; ""; "author"]
  = [false; false; false; false; false; false; false; false].
Proof. reflexivity. Qed.

Example TestRelatedName_Sarah :
  NewName2 ("Sarah " ++ String "009" (String "009" (String "009" " A.  "))) "Hoyt   "
  = Some (mkName "Sarah A. Hoyt" 9 13, None)
  /\ NewRelatedName (mkName "Sarah A. Hoyt" 9 13) "aut"
     = Some (mkRelatedName (mkName "Sarah A. Hoyt" 9 13) ("a", "u", "t")%char, None)
  /\ RelatedName_String (mkRelatedName (mkName "Sarah A. Hoyt" 9 13) ("a", "u", "t")%char)
     = Some "Sarah A. Hoyt (aut)".
Proof. repeat split; reflexivity. Qed.

End PackageTests.

(** * The claims of the specification *)

(** ** The whitespace normalizer *)

(** C5: CleanString is total and never panics; on every string it returns
    the string in which each maximal run of one or more whitespace
    characters (the class [\s]: tab, newline, form feed, carriage return and
    space) is replaced by exactly one space and the leading and trailing
    space are removed ([spec_CleanString], built on the decomposition [runs]
    of the string into its maximal runs).  The empty string and every string
    of whitespace (space, tab, newline, carriage return among them) give the
    empty string, and a normalized string is returned unchanged. *)
Theorem C5_CleanString_normalizer :
  (forall s, CleanString s = Some (spec_CleanString s))
  /\ (forall s, joinRuns (map snd (runs s)) = s
                /\ forallb runOfKind (runs s) = true
                /\ alternating (runs s) = true)
  /\ CleanString "" = Some ""
  /\ (isSpace " " = true /\ isSpace "009" = true
      /\ isSpace "010" = true /\ isSpace "013" = true)
  /\ (forall s, allChars isSpace s = true -> CleanString s = Some "")
  /\ (forall s, normalized s = true -> CleanString s = Some s)
  /\ (forall s, normalized (spec_CleanString s) = true).
Proof.
  split; [exact CleanString_spec|].
  split; [intros s; auto using runs_join, runs_kind, runs_alternating|].
  split; [reflexivity|].
  split; [now repeat split|].
  split; [|split].
  - intros s H. rewrite CleanString_spec. f_equal. now apply spec_CleanString_nil.
  - intros s H. rewrite CleanString_spec. f_equal. now apply spec_CleanString_fixed.
  - exact spec_CleanString_normalized.
Qed.

Lemma C5_CleanString_normalizer_witness :
  CleanString (String "009" (String "010" (String "013" " "))) = Some ""
  /\ CleanString "Baen Books" = Some "Baen Books".
Proof.
  split.
  - apply (proj1 (proj2 (proj2 (proj2 (proj2 C5_CleanString_normalizer))))).
    reflexivity.
  - apply (proj1 (proj2 (proj2 (proj2 (proj2 (proj2 C5_CleanString_normalizer)))))).
    reflexivity.
Defined.

(** ** Name construction *)

(** C1: the one-part constructor does not store the normalized text.  On
    [" Baen "], whose normalized form is ["Baen"], it succeeds with the text
    as given, [" Baen "], and the end offset 6, where the claim has the text
    ["Baen"] and the end offset 4. *)
Theorem C1_NewName1_stores_argument_as_given :
  CleanString " Baen " = Some "Baen"
  /\ NewName1 " Baen " = Some (mkName " Baen " 0 6, None)
  /\ (forall t n, NewName1 t = Some (n, None) -> text n = t).
Proof.
  split; [reflexivity|]. split; [reflexivity|].
  intros t n H. apply NewName1_success in H as [_ ->]. reflexivity.
Qed.

Lemma C1_NewName1_stores_argument_as_given_witness :
  text (mkName " Baen " 0 6) = " Baen ".
Proof.
  apply (proj2 (proj2 C1_NewName1_stores_argument_as_given) " Baen ").
  reflexivity.
Defined.

(** The two-part and three-part constructors only use the normalized
    arguments, so they return the same Name for the arguments as given and
    for the normalized arguments. *)
Lemma NewName2_tolerates_whitespace (f s : string) :
  option_map fst (NewName2 f s)
  = option_map fst (NewName2 (spec_CleanString f) (spec_CleanString s)).
Proof.
  rewrite !NewName2_eq, !spec_CleanString_idempotent. simpl.
  destruct ((spec_CleanString f =? "")%string || (spec_CleanString s =? "")%string);
    reflexivity.
Qed.

Lemma NewName3_tolerates_whitespace (f s g : string) :
  option_map fst (NewName3 f s g)
  = option_map fst (NewName3 (spec_CleanString f) (spec_CleanString s)
                             (spec_CleanString g)).
Proof.
  rewrite !NewName3_eq, !spec_CleanString_idempotent. simpl.
  destruct ((spec_CleanString f =? "")%string || (spec_CleanString s =? "")%string
            || (spec_CleanString g =? "")%string); reflexivity.
Qed.

(** C4: the one-part constructor is not whitespace-tolerant.  [" Baen "]
    normalizes to ["Baen"], but the Name built from [" Baen "] has text
    [" Baen "] and end offset 6 while the Name built from ["Baen"] has text
    ["Baen"] and end offset 4, and the two Names have different common
    forms. *)
Theorem C4_NewName1_is_not_whitespace_tolerant :
  CleanString " Baen " = Some "Baen"
  /\ NewName1 " Baen " = Some (mkName " Baen " 0 6, None)
  /\ NewName1 "Baen" = Some (mkName "Baen" 0 4, None)
  /\ Common (mkName " Baen " 0 6) = Some " Baen "
  /\ Common (mkName "Baen" 0 4) = Some "Baen".
Proof. repeat split; reflexivity. Qed.

(** C6: each constructor fails exactly when one of its arguments normalizes
    to the empty string; it then returns the zero Name and an EmptyPartError
    with the number of arguments and the arguments as given; otherwise it
    returns a Name and no error. *)
Theorem C6_constructors_fail_on_empty_part :
  (forall t,
     (CleanString t = Some "" ->
      NewName1 t = Some (zeroName, Some (EmptyPartError 1 t "" "")))
     /\ (CleanString t <> Some "" -> exists n, NewName1 t = Some (n, None)))
  /\ (forall f s,
     (CleanString f = Some "" \/ CleanString s = Some "" ->
      NewName2 f s = Some (zeroName, Some (EmptyPartError 2 f s "")))
     /\ (CleanString f <> Some "" /\ CleanString s <> Some "" ->
         exists n, NewName2 f s = Some (n, None)))
  /\ (forall f s g,
     (CleanString f = Some "" \/ CleanString s = Some "" \/ CleanString g = Some "" ->
      NewName3 f s g = Some (zeroName, Some (EmptyPartError 3 f s g)))
     /\ (CleanString f <> Some "" /\ CleanString s <> Some ""
         /\ CleanString g <> Some "" ->
         exists n, NewName3 f s g = Some (n, None))).
Proof.
  split; [|split].
  - intros t. rewrite NewName1_eq, CleanString_spec.
    destruct (String.eqb_spec (spec_CleanString t) "") as [E | E]; split.
    + reflexivity.
    + intros H. exfalso. apply H. now rewrite E.
    + intros [= H]. contradiction.
    + eauto.
  - intros f s. rewrite NewName2_eq, !CleanString_spec.
    destruct (String.eqb_spec (spec_CleanString f) "") as [E | E];
      destruct (String.eqb_spec (spec_CleanString s) "") as [E' | E'];
      cbn [orb]; split; try reflexivity; try (intros [H1 H2]; congruence); eauto.
    intros [[= H] | [= H]]; contradiction.
  - intros f s g. rewrite NewName3_eq, !CleanString_spec.
    destruct (String.eqb_spec (spec_CleanString f) "") as [E | E];
      destruct (String.eqb_spec (spec_CleanString s) "") as [E' | E'];
      destruct (String.eqb_spec (spec_CleanString g) "") as [E'' | E''];
      cbn [orb]; split; try reflexivity;
      try (intros (H1 & H2 & H3); congruence); eauto.
    intros [[= H] | [[= H] | [= H]]]; contradiction.
Qed.

Lemma C6_constructors_fail_on_empty_part_witness :
  NewName2 "" "Smith" = Some (zeroName, Some (EmptyPartError 2 "" "Smith" ""))
  /\ exists n, NewName3 "William H.  " "      Keith" "Jr." = Some (n, None).
Proof.
  split.
  - apply (proj1 (proj1 (proj2 C6_constructors_fail_on_empty_part) "" "Smith")).
    left. reflexivity.
  - apply (proj2 (proj2 (proj2 C6_constructors_fail_on_empty_part)
                    "William H.  " "      Keith" "Jr.")).
    repeat split; discriminate.
Defined.

(** ** The accessors *)

(** Where no offset wraps around, FileAs is as documented.  For a Name built
    by the two-part constructor from arguments that normalize to F and S,
    and whose text is shorter than 65536 bytes, FileAs returns S, a comma, a
    space and F; for a Name built by the three-part constructor with a
    generation that normalizes to G, under the same bound, FileAs returns S,
    a comma, a space, F, a space and G; for every Name built by the one-part
    constructor FileAs returns what Common returns. *)
Theorem FileAs_of_short_names :
  (forall f s F S n,
     CleanString f = Some F -> CleanString s = Some S ->
     NewName2 f s = Some (n, None) -> len (text n) < 65536 ->
     F <> "" /\ S <> "" /\ FileAs n = Some (S ++ ", " ++ F))
  /\ (forall f s g F S G n,
     CleanString f = Some F -> CleanString s = Some S -> CleanString g = Some G ->
     NewName3 f s g = Some (n, None) -> len (text n) < 65536 ->
     F <> "" /\ S <> "" /\ G <> "" /\ FileAs n = Some (S ++ ", " ++ F ++ " " ++ G))
  /\ (forall t n, NewName1 t = Some (n, None) ->
     returns (Common n) /\ FileAs n = Common n).
Proof.
  split; [|split].
  - intros f s F S n Hf Hs H Hlen.
    rewrite CleanString_spec in Hf, Hs. injection Hf as <-. injection Hs as <-.
    apply NewName2_success in H as (HF & HS & ->). cbn [text] in Hlen.
    repeat (split; [assumption|]).
    now apply two_part_accessors.
  - intros f s g F S G n Hf Hs Hg H Hlen.
    rewrite CleanString_spec in Hf, Hs, Hg.
    injection Hf as <-. injection Hs as <-. injection Hg as <-.
    apply NewName3_success in H as (HF & HS & HG & ->). cbn [text] in Hlen.
    repeat (split; [assumption|]).
    now apply three_part_accessors.
  - intros t n H. apply NewName1_success in H as [Ht ->].
    apply spec_CleanString_nonempty_arg in Ht.
    destruct (one_part_accessors t Ht) as (HC & HFA & _).
    split; [now exists t|]. now rewrite HC, HFA.
Qed.

Lemma C2_FileAs_of_constructed_names_witness :
  FileAs (mkName "William H. Keith Jr." 11 16) = Some "Keith, William H. Jr.".
Proof.
  apply (proj1 (proj2 FileAs_of_short_names)
           "William H.  " "      Keith" "Jr." "William H." "Keith" "Jr.");
    reflexivity.
Defined.

(** C2: FileAs of a two-part Name is to be S, a comma, a space and F, and of
    a three-part Name the same followed by a space and G.  The code breaks
    this on a forename of 65535 bytes: the conversion uint16(len(f)+1) makes
    the start offset of the surname wrap around to 0, the constructor
    returns the Name without an error, and FileAs then returns the text in
    common order, for the two-part and for the three-part constructor. *)
Lemma C2_FileAs_wrong_after_wrap_around :
  CleanString (replicate 65535 "a") = Some (replicate 65535 "a")
  /\ CleanString "b" = Some "b" /\ CleanString "c" = Some "c"
  /\ NewName2 (replicate 65535 "a") "b"
     = Some (mkName (replicate 65535 "a" ++ " " ++ "b") 0 1, None)
  /\ FileAs (mkName (replicate 65535 "a" ++ " " ++ "b") 0 1)
     <> Some ("b" ++ ", " ++ replicate 65535 "a")
  /\ NewName3 (replicate 65535 "a") "b" "c"
     = Some (mkName ((replicate 65535 "a" ++ " " ++ "b") ++ " " ++ "c") 0 1, None)
  /\ FileAs (mkName ((replicate 65535 "a" ++ " " ++ "b") ++ " " ++ "c") 0 1)
     <> Some ("b" ++ ", " ++ replicate 65535 "a" ++ " " ++ "c").
Proof.
  assert (Hn : normalized (replicate 65535 "a") = true)
    by now apply normalized_replicate.
  assert (H0 : replicate 65535 "a" <> "") by (apply replicate_nonempty; lia).
  assert (HL : len (replicate 65535 "a") = 65535) by (apply len_replicate; lia).
  split; [now apply CleanString_replicate|].
  split; [reflexivity|]. split; [reflexivity|].
  split; [|split; [|split]].
  - rewrite NewName2_normalized by (try assumption; try reflexivity; discriminate).
    rewrite HL. reflexivity.
  - rewrite FileAs_start_0, (replicate_head 65535 "a") by lia.
    cbn [append]. discriminate.
  - rewrite NewName3_normalized by (try assumption; try reflexivity; discriminate).
    rewrite HL. reflexivity.
  - rewrite FileAs_start_0, (replicate_head 65535 "a") by lia.
    cbn [append]. discriminate.
Qed.

(** ** The invariants of the data model *)

(** Where the invariants hold: the text of every Name returned by a
    successful call of the two-part or of the three-part constructor has no
    leading and no trailing whitespace and no run of two or more whitespace
    characters; and every Name returned by a successful call of any of the
    three constructors, whose text is shorter than 65536 bytes, satisfies
    0 <= surnameStart <= surnameEnd <= length(text). *)
Theorem invariants_of_short_names :
  (forall n,
     (exists f s, NewName2 f s = Some (n, None))
     \/ (exists f s g, NewName3 f s g = Some (n, None)) ->
     noLeadingSpace (text n) = true /\ noTrailingSpace (text n) = true
     /\ noSpaceRun (text n) = true)
  /\ (forall n, Constructed n -> len (text n) < 65536 -> offsetsOrdered n).
Proof.
  split.
  - intros n [(f & s & H) | (f & s & g & H)]; apply normalized_parts.
    + apply NewName2_success in H as (HF & HS & ->). cbn [text].
      apply normalized_join; auto using spec_CleanString_normalized.
    + apply NewName3_success in H as (HF & HS & HG & ->). cbn [text].
      apply normalized_join; auto using spec_CleanString_normalized.
      * apply normalized_join; auto using spec_CleanString_normalized.
      * intros E. apply app_eq_nil in E as [E _]. contradiction.
  - intros n [t n' H | f s n' H | f s g n' H] Hlen.
    + apply NewName1_success in H as [Ht ->]. cbn [text] in Hlen.
      apply spec_CleanString_nonempty_arg in Ht.
      now apply (one_part_accessors t Ht).
    + apply NewName2_success in H as (_ & _ & ->). cbn [text] in Hlen.
      now apply two_part_accessors.
    + apply NewName3_success in H as (_ & _ & _ & ->). cbn [text] in Hlen.
      now apply three_part_accessors.
Qed.

Lemma C3_invariants_of_constructed_names_witness :
  noLeadingSpace "Sarah A. Hoyt" = true /\ noTrailingSpace "Sarah A. Hoyt" = true
  /\ noSpaceRun "Sarah A. Hoyt" = true.
Proof.
  apply (proj1 invariants_of_short_names (mkName "Sarah A. Hoyt" 9 13)).
  left. exists ("Sarah " ++ String "009" " A.  "), "Hoyt   ". reflexivity.
Defined.

(** C3: every Name that a constructor returns is to have a text without
    leading whitespace and offsets with
    0 <= surnameStart <= surnameEnd <= length(text), as the comment on the
    type Name says.  The code breaks both: the one-part constructor
    returns, for [" Baen "], a Name whose text starts with a space; and the
    two-part constructor returns, for a forename of 10 bytes and a surname
    of 65530 bytes, a Name with the start offset 11 above the end offset
    5. *)
Lemma C3_constructors_break_the_invariants :
  (NewName1 " Baen " = Some (mkName " Baen " 0 6, None)
   /\ noLeadingSpace (text (mkName " Baen " 0 6)) = false)
  /\ (NewName2 "Washington" (replicate 65530 "b")
      = Some (mkName ("Washington" ++ " " ++ replicate 65530 "b") 11 5, None)
      /\ ~ offsetsOrdered (mkName ("Washington" ++ " " ++ replicate 65530 "b") 11 5)).
Proof.
  split; [split; reflexivity|]. split.
  - rewrite NewName2_normalized.
    + rewrite len_replicate by lia. reflexivity.
    + reflexivity.
    + now apply normalized_replicate.
    + discriminate.
    + apply replicate_nonempty. lia.
  - unfold offsetsOrdered. cbn [boSurname eoSurname]. lia.
Qed.

(** ** Part counts *)

(** Where no offset wraps around, NumParts is as documented: it returns 1
    for every Name built by the one-part constructor, 2 for every Name built
    by the two-part constructor and 3 for every Name built by the three-part
    constructor, when the text of the Name is shorter than 65536 bytes; and
    among the zero value and the Names built by the constructors, NumParts
    returns 0 exactly for the zero value. *)
Theorem NumParts_of_short_names :
  (forall t n, NewName1 t = Some (n, None) -> NumParts n = Some 1)
  /\ (forall f s n, NewName2 f s = Some (n, None) ->
                    len (text n) < 65536 -> NumParts n = Some 2)
  /\ (forall f s g n, NewName3 f s g = Some (n, None) ->
                      len (text n) < 65536 -> NumParts n = Some 3)
  /\ (forall n, ValidName n -> (NumParts n = Some 0 <-> n = zeroName)).
Proof.
  split; [|split; [|split]].
  - intros t n H. apply NewName1_success in H as [Ht ->].
    apply spec_CleanString_nonempty_arg in Ht.
    now apply (one_part_accessors t Ht).
  - intros f s n H Hlen. apply NewName2_success in H as (_ & _ & ->).
    cbn [text] in Hlen. now apply two_part_accessors.
  - intros f s g n H Hlen. apply NewName3_success in H as (_ & _ & _ & ->).
    cbn [text] in Hlen. now apply three_part_accessors.
  - intros n [-> | Hc]; split; try reflexivity.
    + intros H. destruct (NumParts_Constructed n Hc) as (k & Hk & Hr).
      rewrite Hk in H. injection H as ->. lia.
    + intros ->. apply Constructed_text in Hc. now elim Hc.
Qed.

Lemma C8_NumParts_is_the_arity_witness :
  NumParts (mkName "Dave Freer" 5 10) = Some 2.
Proof.
  apply (proj1 (proj2 NumParts_of_short_names) "Dave" "Freer"); reflexivity.
Defined.

(** C8: NumParts is to return the arity of the constructor that built the
    Name.  The code breaks this after a wrap-around of the offsets: with a
    forename of 65535 bytes the two-part constructor returns, without an
    error, a Name of part count 1, and with a generation of 65535 bytes the
    three-part constructor returns a Name of part count 2. *)
Lemma C8_NumParts_wrong_after_wrap_around :
  (NewName2 (replicate 65535 "a") "b"
   = Some (mkName (replicate 65535 "a" ++ " " ++ "b") 0 1, None)
   /\ NumParts (mkName (replicate 65535 "a" ++ " " ++ "b") 0 1) = Some 1)
  /\ (NewName3 "a" "b" (replicate 65535 "c")
      = Some (mkName (("a" ++ " " ++ "b") ++ " " ++ replicate 65535 "c") 2 3, None)
      /\ NumParts (mkName (("a" ++ " " ++ "b") ++ " " ++ replicate 65535 "c") 2 3)
         = Some 2).
Proof.
  assert (HL : forall c, len (replicate 65535 c) = 65535)
    by (intros c; apply len_replicate; lia).
  split; split.
  - rewrite NewName2_normalized.
    + rewrite HL. reflexivity.
    + now apply normalized_replicate.
    + reflexivity.
    + apply replicate_nonempty. lia.
    + discriminate.
  - unfold NumParts. cbn [boSurname text].
    rewrite (replicate_head 65535 "a") by lia. reflexivity.
  - rewrite NewName3_normalized.
    + reflexivity.
    + reflexivity.
    + reflexivity.
    + now apply normalized_replicate.
    + discriminate.
    + discriminate.
    + apply replicate_nonempty. lia.
  - unfold NumParts. cbn [boSurname eoSurname text].
    rewrite len_text3, HL. reflexivity.
Qed.

(** ** Totality of the accessors *)

(** Where no offset wraps around, no accessor panics: on the zero Name and
    on every Name returned by a successful constructor call whose text is
    shorter than 65536 bytes, every accessor (Common, FileAs, Surname,
    Forename, Generation, NumParts and String) returns. *)
Theorem accessors_return_on_short_names :
  forall n, ValidName n -> len (text n) < 65536 ->
    returns (Common n) /\ returns (FileAs n) /\ returns (Surname n)
    /\ returns (Forename n) /\ returns (Generation n) /\ returns (NumParts n)
    /\ returns (Name_String n).
Proof.
  intros n [-> | [t n' H | f s n' H | f s g n' H]] Hlen; unfold returns.
  - repeat split; eexists; reflexivity.
  - apply NewName1_success in H as [Ht ->]. cbn [text] in Hlen.
    apply spec_CleanString_nonempty_arg in Ht.
    destruct (one_part_accessors t Ht) as (H1 & H2 & H3 & H4 & H5 & H6 & _ & H7).
    destruct (H7 Hlen) as [H8 _]. repeat split; eexists; eassumption.
  - apply NewName2_success in H as (_ & _ & ->). cbn [text] in Hlen.
    destruct (two_part_accessors _ _ Hlen) as (H1 & H2 & H3 & H4 & H5 & _).
    repeat split; eexists; (eassumption || reflexivity).
  - apply NewName3_success in H as (_ & _ & _ & ->). cbn [text] in Hlen.
    destruct (three_part_accessors _ _ _ Hlen) as (H1 & H2 & H3 & H4 & H5 & _).
    repeat split; eexists; (eassumption || reflexivity).
Qed.

Lemma C9_accessors_return_witness :
  returns (Common (mkName "Dave Freer" 5 10))
  /\ returns (FileAs (mkName "Dave Freer" 5 10))
  /\ returns (Surname (mkName "Dave Freer" 5 10))
  /\ returns (Forename (mkName "Dave Freer" 5 10))
  /\ returns (Generation (mkName "Dave Freer" 5 10))
  /\ returns (NumParts (mkName "Dave Freer" 5 10))
  /\ returns (Name_String (mkName "Dave Freer" 5 10)).
Proof.
  apply (accessors_return_on_short_names (mkName "Dave Freer" 5 10)).
  - right. apply (Constructed2 "Dave" "Freer"). reflexivity.
  - reflexivity.
Defined.

(** C9: no accessor is to panic on a Name that a constructor returned.  The
    code breaks this: the Name that the two-part constructor returns,
    without an error, for a forename of 10 bytes and a surname of 65530
    bytes has the start offset 11 and the end offset 5, and Surname and
    FileAs panic on the slice text[11:5]. *)
Lemma C9_Surname_and_FileAs_panic :
  NewName2 "Washington" (replicate 65530 "b")
  = Some (mkName ("Washington" ++ " " ++ replicate 65530 "b") 11 5, None)
  /\ Surname (mkName ("Washington" ++ " " ++ replicate 65530 "b") 11 5) = None
  /\ FileAs (mkName ("Washington" ++ " " ++ replicate 65530 "b") 11 5) = None.
Proof.
  split; [|split].
  - rewrite NewName2_normalized.
    + rewrite len_replicate by lia. reflexivity.
    + reflexivity.
    + now apply normalized_replicate.
    + discriminate.
    + apply replicate_nonempty. lia.
  - unfold Surname. cbn [boSurname eoSurname text]. apply slice_panics. lia.
  - unfold FileAs. cbn [boSurname eoSurname text].
    change (11 =? 0) with false. cbv iota.
    rewrite slice_panics by lia. reflexivity.
Qed.

(** ** Related names *)

(** C7: for the zero Name and for every Name built by a constructor,
    NewRelatedName first checks the code: a code that is not exactly three
    lowercase ASCII letters gives a BadRelatorCode error with the Name and
    the code; then the zero Name gives a BadName error with the code; any
    other Name gives a RelatedName with that Name, whose Relator is the code
    and whose String is the common form of the Name, a space and the code in
    parentheses. *)
Theorem C7_NewRelatedName :
  forall (n : Name) (code : string), ValidName n ->
    (~ threeLowercaseLetters code ->
     NewRelatedName n code = Some (zeroRelatedName, Some (BadRelatorCode n code)))
    /\ (threeLowercaseLetters code -> n = zeroName ->
        NewRelatedName n code = Some (zeroRelatedName, Some (BadName code)))
    /\ (threeLowercaseLetters code -> n <> zeroName ->
        exists rn common,
          NewRelatedName n code = Some (rn, None)
          /\ rnName rn = n
          /\ Relator rn = Some code
          /\ Common n = Some common
          /\ RelatedName_String rn = Some (common ++ " (" ++ code ++ ")")).
Proof.
  intros n code Hv. unfold NewRelatedName. split; [|split].
  - intros H. destruct (reRelator_MatchString code) eqn:E; [|reflexivity].
    apply MatchString_spec in E. contradiction.
  - intros H ->. apply MatchString_spec in H. rewrite H. reflexivity.
  - intros H Hn. destruct Hv as [-> | Hc]; [contradiction|].
    pose proof H as (a & b & c & -> & _). apply MatchString_spec in H.
    rewrite H. cbn [negb].
    destruct (NumParts_Constructed n Hc) as (k & -> & Hk). cbn [bind].
    rewrite (eqb_false k 0) by lia.
    exists (mkRelatedName n (a, b, c)), (text n). repeat split.
Qed.

Lemma C7_NewRelatedName_witness :
  exists rn common,
    NewRelatedName (mkName "Sarah A. Hoyt" 9 13) "aut" = Some (rn, None)
    /\ rnName rn = mkName "Sarah A. Hoyt" 9 13
    /\ Relator rn = Some "aut"
    /\ Common (mkName "Sarah A. Hoyt" 9 13) = Some common
    /\ RelatedName_String rn = Some (common ++ " (" ++ "aut" ++ ")").
Proof.
  apply (C7_NewRelatedName (mkName "Sarah A. Hoyt" 9 13) "aut").
  - right. apply (Constructed2 "Sarah A." "Hoyt"). reflexivity.
  - exists "a"%char, "u"%char, "t"%char.
    split; [reflexivity|].
    repeat split; unfold lowercaseLetter; vm_compute; lia.
  - discriminate.
Defined.

(** ** The offsets are 16-bit *)

(** C10: the two offsets of a Name are uint16 values.  Every construction
    whose arguments have non-empty normal forms succeeds, and stores the
    intended offsets reduced modulo 65536: for NewName1(t), the text t with
    the offsets 0 and len(t); for NewName2, the text F, a space and S with
    the offsets len(F)+1 and the length of the text; for NewName3, the text
    F, S and G separated by spaces with the offsets len(F)+1 and
    len(F)+1+len(S); and a successful construction returns no other Name.
    A stored offset is the intended one exactly when the intended one is
    below 65536.  The ordering 0 <= surnameStart <= surnameEnd <=
    length(text) holds for every constructed Name whose intended offsets
    are below 65536 (so for every text shorter than 65536 bytes), and fails
    for some constructed Name with a longer text. *)
Theorem C10_offsets_are_reduced_modulo_65536 :
  (forall z, uint16 z = z mod 65536)
  /\ (forall t, CleanString t <> Some "" ->
        NewName1 t = Some (mkName t (uint16 0) (uint16 (len t)), None))
  /\ (forall f s F S,
        CleanString f = Some F -> CleanString s = Some S -> F <> "" -> S <> "" ->
        NewName2 f s
        = Some (mkName (F ++ " " ++ S) (uint16 (len F + 1))
                       (uint16 (len (F ++ " " ++ S))), None))
  /\ (forall f s g F S G,
        CleanString f = Some F -> CleanString s = Some S -> CleanString g = Some G ->
        F <> "" -> S <> "" -> G <> "" ->
        NewName3 f s g
        = Some (mkName (F ++ " " ++ S ++ " " ++ G) (uint16 (len F + 1))
                       (uint16 (len F + 1 + len S)), None))
  /\ (forall t n, NewName1 t = Some (n, None) ->
        text n = t
        /\ boSurname n = uint16 0 /\ eoSurname n = uint16 (len (text n)))
  /\ (forall f s n, NewName2 f s = Some (n, None) ->
        exists F S, CleanString f = Some F /\ CleanString s = Some S
                    /\ text n = F ++ " " ++ S
                    /\ boSurname n = uint16 (len F + 1)
                    /\ eoSurname n = uint16 (len (text n)))
  /\ (forall f s g n, NewName3 f s g = Some (n, None) ->
        exists F S G, CleanString f = Some F /\ CleanString s = Some S
                      /\ CleanString g = Some G
                      /\ text n = F ++ " " ++ S ++ " " ++ G
                      /\ boSurname n = uint16 (len F + 1)
                      /\ eoSurname n = uint16 (len F + 1 + len S))
  /\ (forall z, 0 <= z -> (uint16 z = z <-> z < 65536))
  /\ (forall n, Constructed n -> len (text n) < 65536 -> offsetsOrdered n)
  /\ (forall t n, NewName1 t = Some (n, None) -> offsetsOrdered n)
  /\ (forall f s g F S n,
        CleanString f = Some F -> CleanString s = Some S ->
        NewName3 f s g = Some (n, None) ->
        len F + 1 + len S < 65536 -> offsetsOrdered n)
  /\ (exists n, Constructed n /\ 65536 <= len (text n) /\ ~ offsetsOrdered n).
Proof.
  split; [reflexivity|].
  split; [|split; [|split; [|split; [|split; [|split; [|split;
    [|split; [|split; [|split]]]]]]]]].
  - intros t H. rewrite NewName1_eq. rewrite CleanString_spec in H.
    destruct (String.eqb_spec (spec_CleanString t) "") as [E | E];
      [|reflexivity].
    exfalso. apply H. now rewrite E.
  - intros f s F S Hf Hs HF HS. rewrite CleanString_spec in Hf, Hs.
    injection Hf as <-. injection Hs as <-.
    rewrite NewName2_eq, (eqb_nil_false _ HF), (eqb_nil_false _ HS).
    reflexivity.
  - intros f s g F S G Hf Hs Hg HF HS HG. rewrite CleanString_spec in Hf, Hs, Hg.
    injection Hf as <-. injection Hs as <-. injection Hg as <-.
    rewrite NewName3_eq, (eqb_nil_false _ HF), (eqb_nil_false _ HS),
      (eqb_nil_false _ HG), len_text2, app_assoc.
    reflexivity.
  - intros t n H. apply NewName1_success in H as [_ ->]. now repeat split.
  - intros f s n H. apply NewName2_success in H as (_ & _ & ->).
    exists (spec_CleanString f), (spec_CleanString s).
    rewrite !CleanString_spec. now repeat split.
  - intros f s g n H. apply NewName3_success in H as (_ & _ & _ & ->).
    exists (spec_CleanString f), (spec_CleanString s), (spec_CleanString g).
    rewrite !CleanString_spec, <- len_text2. cbn [text]. rewrite app_assoc.
    now repeat split.
  - exact uint16_exact.
  - intros n [t n' H | f s n' H | f s g n' H] Hlen.
    + apply NewName1_success in H as [Ht ->]. cbn [text] in Hlen.
      apply spec_CleanString_nonempty_arg in Ht.
      now apply (one_part_accessors t Ht).
    + apply NewName2_success in H as (_ & _ & ->). cbn [text] in Hlen.
      now apply two_part_accessors.
    + apply NewName3_success in H as (_ & _ & _ & ->). cbn [text] in Hlen.
      now apply three_part_accessors.
  - intros t n H. apply NewName1_success in H as [_ ->].
    unfold offsetsOrdered. cbn [text boSurname eoSurname].
    pose proof (uint16_range (len t)). pose proof (len_nonneg t) as Hn.
    assert (uint16 (len t) <= len t)
      by (unfold uint16; apply Z.mod_le; lia).
    lia.
  - intros f s g F S n Hf Hs H Hlen. rewrite CleanString_spec in Hf, Hs.
    injection Hf as <-. injection Hs as <-.
    apply NewName3_success in H as (_ & _ & _ & ->).
    unfold offsetsOrdered. cbn [text boSurname eoSurname].
    pose proof (len_nonneg (spec_CleanString f)).
    pose proof (len_nonneg (spec_CleanString s)).
    pose proof (len_nonneg (spec_CleanString g)).
    rewrite len_text3, len_text2, !uint16_small by lia. lia.
  - exists (mkName ("Washington" ++ " " ++ replicate 65530 "b") 11 5).
    split; [|split].
    + apply (Constructed2 "Washington" (replicate 65530 "b")).
      rewrite NewName2_normalized.
      * rewrite len_replicate by lia. reflexivity.
      * reflexivity.
      * now apply normalized_replicate.
      * discriminate.
      * apply replicate_nonempty. lia.
    + cbn [text]. rewrite len_text2, len_replicate by lia.
      change (len "Washington") with 10. lia.
    + unfold offsetsOrdered. cbn [boSurname eoSurname]. lia.
Qed.

Lemma C10_offsets_are_reduced_modulo_65536_witness :
  NewName1 " Baen "
  = Some (mkName " Baen " (uint16 0) (uint16 (len " Baen ")), None)
  /\ NewName2 "Sydney" "Van   Scyoc"
     = Some (mkName ("Sydney" ++ " " ++ "Van Scyoc") (uint16 (len "Sydney" + 1))
                    (uint16 (len ("Sydney" ++ " " ++ "Van Scyoc"))), None)
  /\ NewName3 "William H.  " "      Keith" "Jr."
     = Some (mkName ("William H." ++ " " ++ "Keith" ++ " " ++ "Jr.")
                    (uint16 (len "William H." + 1))
                    (uint16 (len "William H." + 1 + len "Keith")), None)
  /\ offsetsOrdered (mkName "William H. Keith Jr." 11 16).
Proof.
  split; [|split; [|split]].
  - apply (proj1 (proj2 C10_offsets_are_reduced_modulo_65536) " Baen ").
    vm_compute. discriminate.
  - apply (proj1 (proj2 (proj2 C10_offsets_are_reduced_modulo_65536))
             "Sydney" "Van   Scyoc" "Sydney" "Van Scyoc");
      (reflexivity || discriminate).
  - apply (proj1 (proj2 (proj2 (proj2 C10_offsets_are_reduced_modulo_65536)))
             "William H.  " "      Keith" "Jr." "William H." "Keith" "Jr.");
      (reflexivity || discriminate).
  - apply (proj1 (proj2 (proj2 (proj2 (proj2 (proj2 (proj2 (proj2 (proj2
             C10_offsets_are_reduced_modulo_65536))))))))
             (mkName "William H. Keith Jr." 11 16)).
    + apply (Constructed3 "William H.  " "      Keith" "Jr."). reflexivity.
    + reflexivity.
Defined.

(** * Further properties of the package *)

(** ** More on CleanString *)

Section CleanStringMore.

Lemma graphicBytes_replace (s : string) (b : bool) :
  graphicBytes (ReplaceAllSpaceRuns " " b s) = graphicBytes s.
Proof.
  revert b. induction s as [|c r IH]; intros b; [reflexivity|].
  destruct (isSpace c) eqn:E.
  - rewrite R_space by exact E. cbn [graphicBytes]. rewrite E.
    destruct b; [apply IH|]. cbn [graphicBytes]. apply IH.
  - rewrite R_graphic by exact E. cbn [graphicBytes]. now rewrite E, IH.
Qed.

Lemma graphicBytes_stripLeading (r : string) :
  graphicBytes (stripLeadingSpaces r) = graphicBytes r.
Proof.
  induction r as [|c r IH]; [reflexivity|].
  cbn [stripLeadingSpaces]. destruct (Ascii.eqb_spec c " ") as [-> | _];
    [exact IH | reflexivity].
Qed.

Lemma graphicBytes_stripTrailing (r : string) :
  graphicBytes (stripTrailingSpaces r) = graphicBytes r.
Proof.
  induction r as [|c r IH]; [reflexivity|].
  cbn [stripTrailingSpaces]. destruct (stripTrailingSpaces r) as [|d q].
  - cbn [graphicBytes] in IH. destruct (Ascii.eqb_spec c " ") as [-> | _].
    + cbn [graphicBytes]. exact IH.
    + cbn [graphicBytes]. now rewrite <- IH.
  - cbn [graphicBytes] in IH |- *. now rewrite IH.
Qed.

Lemma len_replace_le (s : string) (b : bool) :
  len (ReplaceAllSpaceRuns " " b s) <= len s.
Proof.
  revert b. induction s as [|c r IH]; intros b; [reflexivity|].
  rewrite len_cons. destruct (isSpace c) eqn:E.
  - rewrite R_space by exact E. destruct b.
    + specialize (IH true). lia.
    + rewrite len_cons. specialize (IH true). lia.
  - rewrite R_graphic by exact E. rewrite len_cons. specialize (IH false). lia.
Qed.

Lemma len_stripLeading_le (r : string) : len (stripLeadingSpaces r) <= len r.
Proof.
  induction r as [|c r IH]; [reflexivity|].
  cbn [stripLeadingSpaces]. destruct (c =? " ")%char; [|lia].
  rewrite len_cons. lia.
Qed.

Lemma len_stripTrailing_le (r : string) : len (stripTrailingSpaces r) <= len r.
Proof.
  induction r as [|c r IH]; [reflexivity|].
  cbn [stripTrailingSpaces]. rewrite len_cons.
  destruct (stripTrailingSpaces r) as [|d q].
  - pose proof (len_nonneg r).
    destruct (c =? " ")%char; [rewrite len_nil | rewrite len_cons, len_nil]; lia.
  - rewrite (len_cons c). lia.
Qed.

(** The test of the constructors, [CleanString(arg) == ""], is the test
    that the argument is made of whitespace. *)
Lemma blank_eqb (s : string) :
  (spec_CleanString s =? "")%string = allChars isSpace s.
Proof.
  destruct (String.eqb_spec (spec_CleanString s) "") as [E | E].
  - symmetry. now apply spec_CleanString_nil.
  - destruct (allChars isSpace s) eqn:B; [|reflexivity].
    apply spec_CleanString_nil in B. contradiction.
Qed.

End CleanStringMore.

(** X1: CleanString is idempotent: cleaning a result of CleanString returns
    it unchanged. *)
Theorem X1_CleanString_idempotent :
  forall s t, CleanString s = Some t -> CleanString t = Some t.
Proof.
  intros s t H. rewrite CleanString_spec in H |- *. injection H as <-.
  f_equal. apply spec_CleanString_idempotent.
Qed.

Lemma X1_CleanString_idempotent_witness : CleanString "a b c" = Some "a b c".
Proof.
  apply (X1_CleanString_idempotent ("a     b" ++ String "010" "c   ")).
  reflexivity.
Defined.

(** X2: the strings that CleanString returns unchanged are exactly the
    normalized ones: no whitespace other than the space U+0020, no space at
    either end and no two spaces in a row. *)
Theorem X2_CleanString_fixed_points :
  forall s, CleanString s = Some s <-> normalized s = true.
Proof.
  intros s. rewrite CleanString_spec. split.
  - intros [= H]. rewrite <- H. apply spec_CleanString_normalized.
  - intros H. f_equal. now apply spec_CleanString_fixed.
Qed.

Lemma X2_CleanString_fixed_points_witness :
  CleanString "Van Scyoc" = Some "Van Scyoc".
Proof.
  apply (proj2 (X2_CleanString_fixed_points "Van Scyoc")). reflexivity.
Defined.

(** X3: CleanString returns the empty string exactly for the strings made
    of whitespace only (the empty string among them). *)
Theorem X3_CleanString_empty_iff_blank :
  forall s, CleanString s = Some "" <-> allChars isSpace s = true.
Proof.
  intros s. rewrite CleanString_spec. split.
  - intros [= H]. now apply spec_CleanString_nil.
  - intros H. f_equal. now apply spec_CleanString_nil.
Qed.

Lemma X3_CleanString_empty_iff_blank_witness :
  allChars isSpace (String "010" ("    " ++ String "013" "")) = true.
Proof.
  apply (proj1 (X3_CleanString_empty_iff_blank
                  (String "010" ("    " ++ String "013" "")))).
  reflexivity.
Defined.

(** X4: CleanString only removes or replaces whitespace: the bytes of the
    result that are not whitespace are those of the argument, in the same
    order, and the result is never longer than the argument. *)
Theorem X4_CleanString_keeps_graphic_bytes :
  forall s t, CleanString s = Some t ->
    graphicBytes t = graphicBytes s /\ len t <= len s.
Proof.
  intros s t H. rewrite CleanString_spec in H. injection H as <-.
  unfold spec_CleanString. rewrite collapse_runs.
  unfold reWhitespace_ReplaceAllString. split.
  - now rewrite graphicBytes_stripTrailing, graphicBytes_stripLeading,
      graphicBytes_replace.
  - pose proof (len_replace_le s false) as H1.
    pose proof (len_stripLeading_le (ReplaceAllSpaceRuns " " false s)) as H2.
    pose proof (len_stripTrailing_le
                  (stripLeadingSpaces (ReplaceAllSpaceRuns " " false s))) as H3.
    lia.
Qed.

Lemma X4_CleanString_keeps_graphic_bytes_witness :
  graphicBytes "William H." = graphicBytes "William H.  "
  /\ len "William H." <= len "William H.  ".
Proof.
  apply (X4_CleanString_keeps_graphic_bytes "William H.  " "William H.").
  reflexivity.
Defined.

(** ** More on the constructors *)

(** X5: a constructor returns an error exactly when one of its arguments is
    empty or made of whitespace only; it never panics. *)
Theorem X5_constructors_fail_iff_blank_argument :
  (forall t, option_map failed (NewName1 t) = Some (allChars isSpace t))
  /\ (forall f s, option_map failed (NewName2 f s)
                  = Some (allChars isSpace f || allChars isSpace s))
  /\ (forall f s g, option_map failed (NewName3 f s g)
                    = Some (allChars isSpace f || allChars isSpace s
                            || allChars isSpace g)).
Proof.
  split; [|split].
  - intros t. rewrite NewName1_eq, blank_eqb.
    destruct (allChars isSpace t); reflexivity.
  - intros f s. rewrite NewName2_eq, !blank_eqb.
    destruct (allChars isSpace f), (allChars isSpace s); reflexivity.
  - intros f s g. rewrite NewName3_eq, !blank_eqb.
    destruct (allChars isSpace f), (allChars isSpace s), (allChars isSpace g);
      reflexivity.
Qed.

(** X6: the two-part and the three-part constructor only look at the
    normal forms of their arguments: two calls whose arguments have the same
    normal forms return the same Name. *)
Theorem X6_NewName23_depend_on_normal_forms :
  (forall f s f' s',
     CleanString f = CleanString f' -> CleanString s = CleanString s' ->
     option_map fst (NewName2 f s) = option_map fst (NewName2 f' s'))
  /\ (forall f s g f' s' g',
     CleanString f = CleanString f' -> CleanString s = CleanString s' ->
     CleanString g = CleanString g' ->
     option_map fst (NewName3 f s g) = option_map fst (NewName3 f' s' g')).
Proof.
  split.
  - intros f s f' s' Hf Hs. rewrite !CleanString_spec in Hf, Hs.
    injection Hf as Hf. injection Hs as Hs.
    rewrite !NewName2_eq, Hf, Hs. cbn [option_map].
    destruct ((spec_CleanString f' =? "")%string || (spec_CleanString s' =? "")%string);
      reflexivity.
  - intros f s g f' s' g' Hf Hs Hg. rewrite !CleanString_spec in Hf, Hs, Hg.
    injection Hf as Hf. injection Hs as Hs. injection Hg as Hg.
    rewrite !NewName3_eq, Hf, Hs, Hg. cbn [option_map].
    destruct ((spec_CleanString f' =? "")%string || (spec_CleanString s' =? "")%string
              || (spec_CleanString g' =? "")%string); reflexivity.
Qed.

Lemma X6_NewName23_depend_on_normal_forms_witness :
  option_map fst (NewName2 "Sarah   A.  " "Hoyt   ")
  = option_map fst (NewName2 "Sarah A." "Hoyt").
Proof.
  apply (proj1 X6_NewName23_depend_on_normal_forms); reflexivity.
Defined.

(** ** More on the accessors *)

Section AccessorsMore.

Lemma index_sep2 (F S : string) : index (F ++ " " ++ S) (len F) = Some " "%char.
Proof. apply index_app_here. Qed.

Lemma index_sep3_fore (F S G : string) :
  index ((F ++ " " ++ S) ++ " " ++ G) (len F) = Some " "%char.
Proof. rewrite app_assoc. apply index_app_here. Qed.

Lemma index_sep3_gen (F S G : string) :
  index ((F ++ " " ++ S) ++ " " ++ G) (len (F ++ " " ++ S)) = Some " "%char.
Proof. apply index_app_here. Qed.

Lemma len_pos (s : string) : s <> "" -> 0 < len s.
Proof.
  destruct s; [contradiction|]. intros _. rewrite len_cons.
  pose proof (len_nonneg s). lia.
Qed.

(** The offsets and the separators of a valid Name with a text shorter than
    64 KiB. *)
Lemma shape_of_valid_name (n : Name) :
  ValidName n -> len (text n) < 65536 ->
  (boSurname n = 0 /\ eoSurname n = len (text n))
  \/ (2 <= boSurname n /\ boSurname n < eoSurname n
      /\ index (text n) (boSurname n - 1) = Some " "%char
      /\ (eoSurname n = len (text n)
          \/ (eoSurname n < len (text n) - 1
              /\ index (text n) (eoSurname n) = Some " "%char))).
Proof.
  intros [-> | [t n' H | f s n' H | f s g n' H]] Hlen.
  - left. now split.
  - apply NewName1_success in H as [_ ->]. cbn [text] in Hlen. left.
    cbn [boSurname eoSurname text]. split; [reflexivity|].
    apply uint16_small. pose proof (len_nonneg t). lia.
  - apply NewName2_success in H as (HF & HS & ->). cbn [text] in Hlen. right.
    apply len_pos in HF, HS. rewrite len_text2 in Hlen.
    cbn [boSurname eoSurname text]. rewrite len_text2.
    rewrite !uint16_small by lia.
    replace (len (spec_CleanString f) + 1 - 1) with (len (spec_CleanString f)) by lia.
    rewrite index_sep2. repeat split; lia.
  - apply NewName3_success in H as (HF & HS & HG & ->). cbn [text] in Hlen. right.
    apply len_pos in HF, HS, HG. rewrite len_text3 in Hlen.
    cbn [boSurname eoSurname text]. rewrite len_text3.
    pose proof (index_sep3_gen (spec_CleanString f) (spec_CleanString s)
                  (spec_CleanString g)) as Hg.
    rewrite len_text2 in Hg |- *.
    rewrite !uint16_small by lia.
    replace (len (spec_CleanString f) + 1 - 1) with (len (spec_CleanString f)) by lia.
    rewrite index_sep3_fore. repeat split; try lia. right. split; [lia | exact Hg].
Qed.

End AccessorsMore.

(** X7: the accessors give back the parts of a two-part Name.  For a Name
    built by NewName2 from arguments with normal forms F and S, and with a
    text shorter than 65536 bytes, Common returns F, a space and S, Forename
    returns F, Surname returns S and Generation returns the empty string. *)
Theorem X7_two_part_accessors_return_the_parts :
  forall f s F S n,
    CleanString f = Some F -> CleanString s = Some S ->
    NewName2 f s = Some (n, None) -> len (text n) < 65536 ->
    Common n = Some (F ++ " " ++ S) /\ Forename n = Some F
    /\ Surname n = Some S /\ Generation n = Some "".
Proof.
  intros f s F S n Hf Hs H Hlen.
  rewrite CleanString_spec in Hf, Hs. injection Hf as <-. injection Hs as <-.
  apply NewName2_success in H as (_ & _ & ->). cbn [text] in Hlen.
  destruct (two_part_accessors _ _ Hlen) as (_ & H2 & H3 & H4 & _).
  now repeat split.
Qed.

Lemma X7_two_part_accessors_return_the_parts_witness :
  Common (mkName "Sydney Van Scyoc" 7 16) = Some ("Sydney" ++ " " ++ "Van Scyoc")
  /\ Forename (mkName "Sydney Van Scyoc" 7 16) = Some "Sydney"
  /\ Surname (mkName "Sydney Van Scyoc" 7 16) = Some "Van Scyoc"
  /\ Generation (mkName "Sydney Van Scyoc" 7 16) = Some "".
Proof.
  apply (X7_two_part_accessors_return_the_parts " Sydney" "Van   Scyoc");
    reflexivity.
Defined.

(** X8: the accessors give back the parts of a three-part Name.  For a Name
    built by NewName3 from arguments with normal forms F, S and G, and with
    a text shorter than 65536 bytes, Common returns F, S and G separated by
    single spaces, Forename returns F, Surname returns S and Generation
    returns G, whatever G contains (a generation of several words is
    accepted and returned). *)
Theorem X8_three_part_accessors_return_the_parts :
  forall f s g F S G n,
    CleanString f = Some F -> CleanString s = Some S -> CleanString g = Some G ->
    NewName3 f s g = Some (n, None) -> len (text n) < 65536 ->
    Common n = Some (F ++ " " ++ S ++ " " ++ G) /\ Forename n = Some F
    /\ Surname n = Some S /\ Generation n = Some G.
Proof.
  intros f s g F S G n Hf Hs Hg H Hlen.
  rewrite CleanString_spec in Hf, Hs, Hg.
  injection Hf as <-. injection Hs as <-. injection Hg as <-.
  apply NewName3_success in H as (_ & _ & _ & ->). cbn [text] in Hlen.
  destruct (three_part_accessors _ _ _ Hlen) as (_ & H2 & H3 & H4 & _).
  repeat split; try assumption.
  unfold Common, ret. cbn [text]. now rewrite !app_assoc.
Qed.

Lemma X8_three_part_accessors_return_the_parts_witness :
  Common (mkName "Henry Tudor the Eighth" 6 11)
  = Some ("Henry" ++ " " ++ "Tudor" ++ " " ++ "the Eighth")
  /\ Forename (mkName "Henry Tudor the Eighth" 6 11) = Some "Henry"
  /\ Surname (mkName "Henry Tudor the Eighth" 6 11) = Some "Tudor"
  /\ Generation (mkName "Henry Tudor the Eighth" 6 11) = Some "the Eighth".
Proof.
  apply (X8_three_part_accessors_return_the_parts "Henry" "Tudor" "the  Eighth");
    reflexivity.
Defined.

(** X9: on a Name built by NewName1, Common, FileAs and String return the
    argument as it was given, Forename and Generation return the empty
    string, and Surname returns the argument as it was given when it is
    shorter than 65536 bytes. *)
Theorem X9_one_part_accessors :
  forall t n, NewName1 t = Some (n, None) ->
    Common n = Some t /\ FileAs n = Some t /\ Name_String n = Some t
    /\ Forename n = Some "" /\ Generation n = Some ""
    /\ (len t < 65536 -> Surname n = Some t).
Proof.
  intros t n H. apply NewName1_success in H as [Ht ->].
  apply spec_CleanString_nonempty_arg in Ht.
  destruct (one_part_accessors t Ht) as (H1 & H2 & H3 & H4 & _ & H6 & _ & H7).
  repeat split; try assumption. intros Hlen. now apply H7.
Qed.

Lemma X9_one_part_accessors_witness :
  Common (mkName "Gharlane of Eddore" 0 18) = Some "Gharlane of Eddore"
  /\ FileAs (mkName "Gharlane of Eddore" 0 18) = Some "Gharlane of Eddore"
  /\ Name_String (mkName "Gharlane of Eddore" 0 18) = Some "Gharlane of Eddore"
  /\ Forename (mkName "Gharlane of Eddore" 0 18) = Some ""
  /\ Generation (mkName "Gharlane of Eddore" 0 18) = Some ""
  /\ (len "Gharlane of Eddore" < 65536 ->
      Surname (mkName "Gharlane of Eddore" 0 18) = Some "Gharlane of Eddore").
Proof.
  apply (X9_one_part_accessors "Gharlane of Eddore"). reflexivity.
Defined.

(** X10: among the zero Name and the Names built by the constructors, with a
    text shorter than 65536 bytes, Surname returns the empty string exactly
    on the zero Name. *)
Theorem X10_Surname_empty_iff_zero :
  forall n, ValidName n -> len (text n) < 65536 ->
    (Surname n = Some "" <-> n = zeroName).
Proof.
  intros n Hv Hlen. split; [|intros ->; reflexivity].
  revert Hlen.
  destruct Hv as [-> | [t n' H | f s n' H | f s g n' H]]; [reflexivity| | |];
    intros Hlen E; exfalso.
  - apply NewName1_success in H as [Ht ->]. cbn [text] in Hlen.
    apply spec_CleanString_nonempty_arg in Ht.
    destruct (one_part_accessors t Ht) as (_ & _ & _ & _ & _ & _ & _ & H7).
    destruct (H7 Hlen) as [H8 _]. rewrite H8 in E. injection E as E. contradiction.
  - apply NewName2_success in H as (_ & HS & ->). cbn [text] in Hlen.
    destruct (two_part_accessors _ _ Hlen) as (_ & H2 & _).
    rewrite H2 in E. injection E as E. contradiction.
  - apply NewName3_success in H as (_ & HS & _ & ->). cbn [text] in Hlen.
    destruct (three_part_accessors _ _ _ Hlen) as (_ & H2 & _).
    rewrite H2 in E. injection E as E. contradiction.
Qed.

Lemma X10_Surname_empty_iff_zero_witness :
  Surname (mkName "Dave Freer" 5 10) = Some ""
  <-> mkName "Dave Freer" 5 10 = zeroName.
Proof.
  apply (X10_Surname_empty_iff_zero (mkName "Dave Freer" 5 10)).
  - right. apply (Constructed2 "Dave" "Freer"). reflexivity.
  - reflexivity.
Defined.

(** X11: the invariants that the source states for the offsets.  For the
    zero Name and every Name built by a constructor, with a text shorter
    than 65536 bytes: boSurname = 0 implies eoSurname = len(text);
    eoSurname <> len(text) implies eoSurname < len(text) - 1; and when
    boSurname is not 0 it is at least 2 and below eoSurname, so the
    forename and the surname are not empty. *)
Theorem X11_offset_invariants :
  forall n, ValidName n -> len (text n) < 65536 ->
    (boSurname n = 0 -> eoSurname n = len (text n))
    /\ (eoSurname n <> len (text n) -> eoSurname n < len (text n) - 1)
    /\ (boSurname n <> 0 -> 2 <= boSurname n < eoSurname n).
Proof.
  intros n Hv Hlen.
  destruct (shape_of_valid_name n Hv Hlen)
    as [[H1 H2] | (H1 & H2 & _ & [H3 | [H3 _]])]; repeat split; lia.
Qed.

Lemma X11_offset_invariants_witness :
  (boSurname (mkName "William H. Keith Jr." 11 16) = 0 ->
   eoSurname (mkName "William H. Keith Jr." 11 16)
   = len (text (mkName "William H. Keith Jr." 11 16)))
  /\ (eoSurname (mkName "William H. Keith Jr." 11 16)
      <> len (text (mkName "William H. Keith Jr." 11 16)) ->
      eoSurname (mkName "William H. Keith Jr." 11 16)
      < len (text (mkName "William H. Keith Jr." 11 16)) - 1)
  /\ (boSurname (mkName "William H. Keith Jr." 11 16) <> 0 ->
      2 <= boSurname (mkName "William H. Keith Jr." 11 16)
        < eoSurname (mkName "William H. Keith Jr." 11 16)).
Proof.
  apply (X11_offset_invariants (mkName "William H. Keith Jr." 11 16)).
  - right. apply (Constructed3 "William H.  " "      Keith" "Jr."). reflexivity.
  - reflexivity.
Defined.

(** X12: the bytes around the surname are the separating spaces.  For the
    zero Name and every Name built by a constructor, with a text shorter
    than 65536 bytes: when boSurname is not 0 the byte before the surname,
    text[boSurname-1], is a space; when eoSurname is not len(text) the byte
    after the surname, text[eoSurname], is a space. *)
Theorem X12_separators_are_spaces :
  forall n, ValidName n -> len (text n) < 65536 ->
    (boSurname n <> 0 -> index (text n) (boSurname n - 1) = Some " "%char)
    /\ (eoSurname n <> len (text n) -> index (text n) (eoSurname n) = Some " "%char).
Proof.
  intros n Hv Hlen.
  destruct (shape_of_valid_name n Hv Hlen)
    as [[H1 H2] | (H1 & H2 & H3 & [H4 | [H4 H5]])]; split; intros H;
    try assumption; try contradiction; lia.
Qed.

Lemma X12_separators_are_spaces_witness :
  (boSurname (mkName "William H. Keith Jr." 11 16) <> 0 ->
   index (text (mkName "William H. Keith Jr." 11 16))
         (boSurname (mkName "William H. Keith Jr." 11 16) - 1) = Some " "%char)
  /\ (eoSurname (mkName "William H. Keith Jr." 11 16)
      <> len (text (mkName "William H. Keith Jr." 11 16)) ->
      index (text (mkName "William H. Keith Jr." 11 16))
            (eoSurname (mkName "William H. Keith Jr." 11 16)) = Some " "%char).
Proof.
  apply (X12_separators_are_spaces (mkName "William H. Keith Jr." 11 16)).
  - right. apply (Constructed3 "William H.  " "      Keith" "Jr."). reflexivity.
  - reflexivity.
Defined.

(** ** More on related names *)

Section RelatedNameMore.

(** NumParts returns on every value of the type Name. *)
Lemma NumParts_returns (n : Name) :
  exists k, NumParts n = Some k /\ 0 <= k <= 3
            /\ (k = 0 <-> boSurname n = 0 /\ text n = "").
Proof.
  unfold NumParts.
  destruct (Z.eqb_spec (boSurname n) 0) as [E | E].
  - destruct (String.eqb_spec (text n) "") as [T | T].
    + exists 0. split; [reflexivity|]. split; [lia|]. tauto.
    + exists 1. split; [reflexivity|]. split; [lia|].
      split; [discriminate | intros [_ H]; contradiction].
  - destruct (eoSurname n =? uint16 (len (text n))).
    + exists 2. split; [reflexivity|]. split; [lia|].
      split; [discriminate | intros [H _]; contradiction].
    + exists 3. split; [reflexivity|]. split; [lia|].
      split; [discriminate | intros [H _]; contradiction].
Qed.

Lemma MatchString_three (code : string) :
  reRelator_MatchString code = true ->
  exists a b c, code = String a (String b (String c "")).
Proof.
  intros H. apply MatchString_spec in H as (a & b & c & -> & _). eauto.
Qed.

End RelatedNameMore.

(** X13: what a successful NewRelatedName guarantees, for every value of
    the type Name and every code: the code is made of exactly three
    lowercase ASCII letters, the Name has at least one part, the
    RelatedName holds that Name, Relator returns the code, and building a
    RelatedName again from the embedded Name and the result of Relator
    returns the same RelatedName. *)
Theorem X13_RelatedName_invariant_and_round_trip :
  forall n code rn, NewRelatedName n code = Some (rn, None) ->
    threeLowercaseLetters code
    /\ (exists k, NumParts n = Some k /\ 1 <= k <= 3)
    /\ rnName rn = n
    /\ Relator rn = Some code
    /\ NewRelatedName (rnName rn) code = Some (rn, None).
Proof.
  intros n code rn H. pose proof H as H0. unfold NewRelatedName in H.
  destruct (reRelator_MatchString code) eqn:M; [|discriminate H].
  cbn [negb] in H.
  destruct (NumParts_returns n) as (k & Hk & Hr & Hz). rewrite Hk in H.
  cbn [bind] in H. destruct (Z.eqb_spec k 0) as [E | E]; [discriminate H|].
  destruct (MatchString_three code M) as (a & b & c & ->).
  injection H as <-. cbn [rnName].
  split; [now apply MatchString_spec|].
  split; [exists k; split; [exact Hk | lia]|].
  now repeat split.
Qed.

Lemma X13_RelatedName_invariant_and_round_trip_witness :
  threeLowercaseLetters "edc"
  /\ (exists k, NumParts (mkName "Baen Books" 0 10) = Some k /\ 1 <= k <= 3)
  /\ rnName (mkRelatedName (mkName "Baen Books" 0 10) ("e", "d", "c")%char)
     = mkName "Baen Books" 0 10
  /\ Relator (mkRelatedName (mkName "Baen Books" 0 10) ("e", "d", "c")%char)
     = Some "edc"
  /\ NewRelatedName
       (rnName (mkRelatedName (mkName "Baen Books" 0 10) ("e", "d", "c")%char)) "edc"
     = Some (mkRelatedName (mkName "Baen Books" 0 10) ("e", "d", "c")%char, None).
Proof.
  apply (X13_RelatedName_invariant_and_round_trip (mkName "Baen Books" 0 10) "edc").
  reflexivity.
Defined.

(** X14: NewRelatedName never panics, whatever the value of type Name and
    the code, and when it returns an error the RelatedName it returns is
    the zero value, whose Name has no part. *)
Theorem X14_NewRelatedName_returns :
  forall n code, exists rn e,
    NewRelatedName n code = Some (rn, e)
    /\ (e <> None -> rn = zeroRelatedName /\ NumParts (rnName rn) = Some 0).
Proof.
  intros n code. unfold NewRelatedName.
  destruct (reRelator_MatchString code) eqn:M; cbn [negb].
  - destruct (NumParts_returns n) as (k & -> & _). cbn [bind].
    destruct (MatchString_three code M) as (a & b & c & ->).
    destruct (k =? 0).
    + eexists _, _. split; [reflexivity|]. now split.
    + eexists _, _. split; [reflexivity|]. intros H. now elim H.
  - eexists _, _. split; [reflexivity|]. now split.
Qed.

Lemma X14_NewRelatedName_returns_witness :
  exists rn e,
    NewRelatedName zeroName "author" = Some (rn, e)
    /\ (e <> None -> rn = zeroRelatedName /\ NumParts (rnName rn) = Some 0).
Proof. apply (X14_NewRelatedName_returns zeroName "author"). Defined.

(** ** The messages of the errors *)

Section ErrorMessageFacts.

Variable Quote : string -> string.

Lemma countEmpty_eq (arg : string) (k : Z) :
  countEmpty arg k = Some (if allChars isSpace arg then k + 1 else k).
Proof.
  unfold countEmpty. rewrite CleanString_spec. cbn [bind].
  now rewrite blank_eqb.
Qed.

Lemma countBlank_cons (a : string) (l : list string) :
  countBlank (a :: l) = (if allChars isSpace a then 1 else 0) + countBlank l.
Proof.
  unfold countBlank. cbn [filter].
  destruct (allChars isSpace a); cbn [List.length]; lia.
Qed.

Lemma countBlank_nil : countBlank [] = 0.
Proof. reflexivity. Qed.

(** The message of an EmptyPartError with one, two and three listed
    arguments. *)
Lemma EmptyPartError_Error_1 (a1 a2 a3 : string) :
  EmptyPartError_Error Quote 1 a1 a2 a3
  = Some ("empty or whitespace-only argument"
          ++ (if countBlank [a1] =? 1 then "" else "s")
          ++ " in NewName1(" ++ Quote a1 ++ ")").
Proof.
  unfold EmptyPartError_Error. cbn [Z.eqb Pos.eqb negb andb orb bind ret].
  rewrite countEmpty_eq, countBlank_cons, countBlank_nil.
  destruct (allChars isSpace a1); reflexivity.
Qed.

Lemma EmptyPartError_Error_2 (a1 a2 a3 : string) :
  EmptyPartError_Error Quote 2 a1 a2 a3
  = Some ("empty or whitespace-only argument"
          ++ (if countBlank [a1; a2] =? 1 then "" else "s")
          ++ " in NewName2(" ++ Quote a1 ++ ", " ++ Quote a2 ++ ")").
Proof.
  unfold EmptyPartError_Error. cbn [Z.eqb Pos.eqb negb andb orb bind ret].
  rewrite !countEmpty_eq. cbn [bind]. rewrite !countEmpty_eq.
  rewrite !countBlank_cons, countBlank_nil.
  destruct (allChars isSpace a1), (allChars isSpace a2); cbn [bind];
    rewrite ?app_assoc; reflexivity.
Qed.

Lemma EmptyPartError_Error_default (k : Z) (a1 a2 a3 : string) :
  k <> 0 -> k <> 1 -> k <> 2 ->
  EmptyPartError_Error Quote k a1 a2 a3
  = Some ("empty or whitespace-only argument"
          ++ (if countBlank [a1; a2; a3] =? 1 then "" else "s")
          ++ " in NewName" ++ formatInt k
          ++ "(" ++ Quote a1 ++ ", " ++ Quote a2 ++ ", " ++ Quote a3 ++ ")").
Proof.
  intros H0 H1 H2. unfold EmptyPartError_Error.
  rewrite (eqb_false k 0), (eqb_false k 1), (eqb_false k 2) by assumption.
  cbn [negb andb orb]. rewrite !countEmpty_eq. cbn [bind].
  rewrite !countEmpty_eq. cbn [bind]. rewrite !countEmpty_eq.
  rewrite !countBlank_cons, countBlank_nil.
  destruct (allChars isSpace a1), (allChars isSpace a2), (allChars isSpace a3);
    cbn [bind]; unfold ret; f_equal; f_equal; f_equal;
    rewrite ?app_assoc; reflexivity.
Qed.

End ErrorMessageFacts.

(** X15: the message of the error of a failed constructor call.  Whatever
    strconv.Quote is, the method Error returns
    "empty or whitespace-only argument", then "s" unless exactly one of the
    arguments of the call is empty or whitespace-only, then " in NewName",
    the number of arguments and, in parentheses, the quoted arguments as
    they were given, separated by a comma and a space. *)
Theorem X15_message_of_a_failed_constructor :
  forall Quote : string -> string,
    (forall t n e, NewName1 t = Some (n, Some e) ->
       error_Error Quote e
       = Some ("empty or whitespace-only argument in NewName1(" ++ Quote t ++ ")"))
    /\ (forall f s n e, NewName2 f s = Some (n, Some e) ->
       error_Error Quote e
       = Some ("empty or whitespace-only argument"
               ++ (if countBlank [f; s] =? 1 then "" else "s")
               ++ " in NewName2(" ++ Quote f ++ ", " ++ Quote s ++ ")"))
    /\ (forall f s g n e, NewName3 f s g = Some (n, Some e) ->
       error_Error Quote e
       = Some ("empty or whitespace-only argument"
               ++ (if countBlank [f; s; g] =? 1 then "" else "s")
               ++ " in NewName3(" ++ Quote f ++ ", " ++ Quote s ++ ", "
               ++ Quote g ++ ")")).
Proof.
  intros Quote. split; [|split].
  - intros t n e H. rewrite NewName1_eq, blank_eqb in H.
    destruct (allChars isSpace t) eqn:B; [|discriminate H].
    injection H as _ <-. cbn [error_Error].
    rewrite EmptyPartError_Error_1, countBlank_cons, countBlank_nil, B.
    reflexivity.
  - intros f s n e H. rewrite NewName2_eq in H.
    destruct ((spec_CleanString f =? "")%string || (spec_CleanString s =? "")%string);
      [|discriminate H].
    injection H as _ <-. cbn [error_Error]. apply EmptyPartError_Error_2.
  - intros f s g n e H. rewrite NewName3_eq in H.
    destruct ((spec_CleanString f =? "")%string || (spec_CleanString s =? "")%string
              || (spec_CleanString g =? "")%string);
      [|discriminate H].
    injection H as _ <-. cbn [error_Error].
    apply (EmptyPartError_Error_default Quote 3); discriminate.
Qed.

Lemma X15_message_of_a_failed_constructor_witness :
  error_Error (fun s => String "034" (s ++ String "034" ""))
              (EmptyPartError 2 " " (String "009" "") "")
  = Some ("empty or whitespace-only argument"
          ++ (if countBlank [" "; String "009" ""] =? 1 then "" else "s")
          ++ " in NewName2(" ++ String "034" (" " ++ String "034" "") ++ ", "
          ++ String "034" (String "009" "" ++ String "034" "") ++ ")").
Proof.
  apply (proj1 (proj2 (X15_message_of_a_failed_constructor
                         (fun s => String "034" (s ++ String "034" ""))))
           " " (String "009" "") zeroName).
  reflexivity.
Defined.


(** X17: the message of the error of a failed NewRelatedName.  When the
    code is not three lowercase letters, Error returns "NewRelatedName(",
    the quoted common form of the Name, a comma, the quoted code and the
    text that states the pattern needed; otherwise (the Name has no part)
    it returns the text that asks for a non-zero-value Name, with the
    quoted code. *)
Theorem X17_message_of_a_failed_NewRelatedName :
  forall (Quote : string -> string) n code rn e,
    NewRelatedName n code = Some (rn, Some e) ->
    error_Error Quote e
    = Some (if reRelator_MatchString code
            then "NewRelatedName(Name{}," ++ Quote code
                 ++ "): need a non-zero-value Name"
            else "NewRelatedName(" ++ Quote (text n) ++ "," ++ Quote code
                 ++ "): need /^[a-z][a-z][a-z]$/ for 2nd arg").
Proof.
  intros Quote n code rn e H. unfold NewRelatedName in H.
  destruct (reRelator_MatchString code) eqn:M; cbn [negb] in H.
  - destruct (NumParts_returns n) as (k & Hk & _). rewrite Hk in H.
    cbn [bind] in H. destruct (MatchString_three code M) as (a & b & c & ->).
    destruct (k =? 0); [|discriminate H].
    injection H as _ <-. reflexivity.
  - injection H as _ <-. reflexivity.
Qed.

Lemma X17_message_of_a_failed_NewRelatedName_witness :
  error_Error (fun s => String "034" (s ++ String "034" ""))
              (BadRelatorCode (mkName "Sarah A. Hoyt" 9 13) "Aut")
  = Some (if reRelator_MatchString "Aut"
          then "NewRelatedName(Name{}," ++ String "034" ("Aut" ++ String "034" "")
               ++ "): need a non-zero-value Name"
          else "NewRelatedName("
               ++ String "034" (text (mkName "Sarah A. Hoyt" 9 13) ++ String "034" "")
               ++ "," ++ String "034" ("Aut" ++ String "034" "")
               ++ "): need /^[a-z][a-z][a-z]$/ for 2nd arg").
Proof.
  apply (X17_message_of_a_failed_NewRelatedName
           (fun s => String "034" (s ++ String "034" ""))
           (mkName "Sarah A. Hoyt" 9 13) "Aut" zeroRelatedName).
  reflexivity.
Defined.

(** ** CleanString joins the fields of its argument *)

Section FieldsFacts.

Lemma fields_space (c : ascii) (r : string) :
  isSpace c = true -> fields (String c r) = fields r.
Proof. intros H. cbn [fields]. now rewrite H. Qed.

Lemma fields_graphic (c : ascii) (r : string) :
  isSpace c = false ->
  fields (String c r) =
  match fields r with
  | [] => [String c ""]
  | w :: rest =>
      if startsGraphic r then String c w :: rest else String c "" :: w :: rest
  end.
Proof. intros H. cbn [fields]. now rewrite H. Qed.

(** There is no field exactly in the strings of whitespace. *)
Lemma fields_nil (s : string) : fields s = [] <-> allChars isSpace s = true.
Proof.
  induction s as [|c r IH]; [now split|].
  cbn [allChars]. destruct (isSpace c) eqn:E.
  - rewrite fields_space by exact E. exact IH.
  - rewrite fields_graphic by exact E. split; [|discriminate].
    destruct (fields r); [discriminate|].
    destruct (startsGraphic r); discriminate.
Qed.

Lemma startsGraphic_fields (r : string) :
  startsGraphic r = true -> fields r <> [].
Proof.
  destruct r as [|d q]; [discriminate|]. cbn [startsGraphic].
  intros H E. apply fields_nil in E. cbn [allChars] in E.
  apply negb_true_iff in H. rewrite H in E. discriminate E.
Qed.

(** Every field has a byte, and no whitespace. *)
Lemma fields_graphic_words (s : string) :
  Forall (fun w => w <> "" /\ allChars (fun c => negb (isSpace c)) w = true)
         (fields s).
Proof.
  induction s as [|c r IH]; [constructor|].
  destruct (isSpace c) eqn:E.
  - now rewrite fields_space.
  - rewrite fields_graphic by exact E.
    destruct (fields r) as [|w rest].
    + constructor; [|constructor]. split; [discriminate|].
      cbn [allChars]. now rewrite E.
    + inversion IH as [|? ? [Hw1 Hw2] Hrest]; subst.
      destruct (startsGraphic r).
      * constructor; [|exact Hrest]. split; [discriminate|].
        cbn [allChars]. now rewrite E, Hw2.
      * constructor; [|now constructor]. split; [discriminate|].
        cbn [allChars]. now rewrite E.
Qed.

Lemma concat_cons_nonempty (sep w : string) (rest : list string) :
  w <> "" -> String.concat sep (w :: rest) <> "".
Proof.
  intros Hw. destruct w as [|x w]; [contradiction|].
  cbn [String.concat]. destruct rest; discriminate.
Qed.

Lemma concat_cons_head (sep : string) (c : ascii) (w : string) (rest : list string) :
  String.concat sep (String c w :: rest) = String c (String.concat sep (w :: rest)).
Proof. cbn [String.concat]. destruct rest; reflexivity. Qed.

Lemma concat_app (sep : string) (l1 l2 : list string) :
  l1 <> [] -> l2 <> [] ->
  String.concat sep (l1 ++ l2) = String.concat sep l1 ++ sep ++ String.concat sep l2.
Proof.
  intros H1 H2. induction l1 as [|x l IH]; [contradiction|].
  destruct l as [|y l].
  - cbn [List.app String.concat]. destruct l2; [contradiction | reflexivity].
  - change ((x :: y :: l) ++ l2)%list with (x :: ((y :: l) ++ l2))%list.
    change (String.concat sep (x :: ((y :: l) ++ l2))%list)
      with (x ++ sep ++ String.concat sep ((y :: l) ++ l2)%list).
    rewrite IH by discriminate.
    change (String.concat sep (x :: y :: l))
      with (x ++ sep ++ String.concat sep (y :: l)).
    now rewrite !app_assoc.
Qed.

(** Dropping the leading space of the replaced string is scanning as if a
    match were under way. *)
Lemma stripLeading_replace (s : string) :
  stripLeadingSpaces (ReplaceAllSpaceRuns " " false s)
  = ReplaceAllSpaceRuns " " true s.
Proof.
  destruct s as [|c r]; [reflexivity|].
  destruct (isSpace c) eqn:E.
  - rewrite !R_space by exact E. cbn [stripLeadingSpaces Ascii.eqb Bool.eqb].
    apply noLeadingSpace_strip. apply R_runs.
  - rewrite !R_graphic by exact E. cbn [stripLeadingSpaces].
    destruct (Ascii.eqb_spec c " ") as [-> | _]; [discriminate E | reflexivity].
Qed.

Lemma stripTrailing_cons_graphic (c : ascii) (r : string) :
  isSpace c = false ->
  stripTrailingSpaces (String c r) = String c (stripTrailingSpaces r).
Proof.
  intros E. cbn [stripTrailingSpaces].
  destruct (stripTrailingSpaces r); [|reflexivity].
  destruct (Ascii.eqb_spec c " ") as [-> | _]; [discriminate E | reflexivity].
Qed.

Lemma stripTrailing_cons_space (r : string) :
  stripTrailingSpaces (String " " r)
  = match stripTrailingSpaces r with
    | EmptyString => ""
    | String d q => String " " (String d q)
    end.
Proof. cbn [stripTrailingSpaces]. destruct (stripTrailingSpaces r); reflexivity. Qed.

(** The normal form is the fields joined by single spaces. *)
Lemma stripTrailing_replace_fields (s : string) :
  stripTrailingSpaces (ReplaceAllSpaceRuns " " true s)
  = String.concat " " (fields s).
Proof.
  induction s as [|c r IH]; [reflexivity|].
  destruct (isSpace c) eqn:E.
  - rewrite R_space, fields_space by exact E. exact IH.
  - rewrite R_graphic, fields_graphic by exact E.
    rewrite stripTrailing_cons_graphic by exact E.
    destruct r as [|d q]; [reflexivity|].
    destruct (isSpace d) eqn:Ed.
    + rewrite (R_space false d) by exact Ed.
      rewrite (R_space true d) in IH by exact Ed.
      rewrite stripTrailing_cons_space, IH.
      cbn [startsGraphic]. rewrite Ed. cbn [negb].
      destruct (fields (String d q)) as [|w rest] eqn:F; [reflexivity|].
      pose proof (fields_graphic_words (String d q)) as Hw. rewrite F in Hw.
      inversion Hw as [|? ? [Hw1 _] _]; subst.
      pose proof (concat_cons_nonempty " " w rest Hw1) as Hne.
      change (String.concat " " (String c "" :: w :: rest))
        with (String c (String " " (String.concat " " (w :: rest)))).
      destruct (String.concat " " (w :: rest)) as [|x y] eqn:J; [contradiction|].
      reflexivity.
    + rewrite (R_graphic false d) by exact Ed.
      rewrite (R_graphic true d) in IH by exact Ed. rewrite IH.
      cbn [startsGraphic]. rewrite Ed. cbn [negb].
      destruct (fields (String d q)) as [|w rest] eqn:F.
      * exfalso. apply (startsGraphic_fields (String d q)); [|exact F].
        cbn [startsGraphic]. now rewrite Ed.
      * now rewrite concat_cons_head.
Qed.

Lemma spec_CleanString_fields (s : string) :
  spec_CleanString s = String.concat " " (fields s).
Proof.
  unfold spec_CleanString. rewrite collapse_runs.
  unfold reWhitespace_ReplaceAllString.
  rewrite stripLeading_replace. apply stripTrailing_replace_fields.
Qed.

Lemma startsGraphic_app (r x : string) :
  startsGraphic (r ++ String " " x) = startsGraphic r.
Proof. destruct r; reflexivity. Qed.

(** The fields of two strings joined by a space. *)
Lemma fields_join (a b : string) :
  fields (a ++ " " ++ b) = (fields a ++ fields b)%list.
Proof.
  induction a as [|c r IH]; [reflexivity|].
  change (String c r ++ " " ++ b) with (String c (r ++ " " ++ b)).
  destruct (isSpace c) eqn:E.
  - rewrite !fields_space by exact E. exact IH.
  - rewrite !fields_graphic by exact E. rewrite IH.
    change (r ++ " " ++ b) with (r ++ String " " b). rewrite startsGraphic_app.
    destruct (fields r) as [|w rest] eqn:F.
    + assert (Hs : startsGraphic r = false).
      { destruct (startsGraphic r) eqn:S; [|reflexivity].
        now apply startsGraphic_fields in S. }
      rewrite Hs. cbn [List.app]. destruct (fields b); reflexivity.
    + cbn [List.app]. destruct (startsGraphic r); reflexivity.
Qed.

Lemma spec_CleanString_join (a b : string) :
  spec_CleanString a <> "" -> spec_CleanString b <> "" ->
  spec_CleanString (a ++ " " ++ b) = spec_CleanString a ++ " " ++ spec_CleanString b.
Proof.
  intros Ha Hb. rewrite !spec_CleanString_fields, fields_join.
  apply concat_app.
  - intros E. apply Ha. now rewrite spec_CleanString_fields, E.
  - intros E. apply Hb. now rewrite spec_CleanString_fields, E.
Qed.

End FieldsFacts.

(** X18: CleanString returns the fields of its argument, its maximal runs
    of bytes that are not whitespace, joined by single spaces; each field
    has at least one byte and no whitespace, and there is no field exactly
    when the argument is made of whitespace. *)
Theorem X18_CleanString_joins_the_fields :
  forall s,
    CleanString s = Some (String.concat " " (fields s))
    /\ Forall (fun w => w <> "" /\ allChars (fun c => negb (isSpace c)) w = true)
              (fields s)
    /\ (fields s = [] <-> allChars isSpace s = true).
Proof.
  intros s. rewrite CleanString_spec, spec_CleanString_fields.
  split; [reflexivity|]. split; [apply fields_graphic_words | apply fields_nil].
Qed.

Lemma X18_CleanString_joins_the_fields_witness :
  fields (String "009" " ") = [].
Proof.
  apply (proj2 (proj2 (proj2 (X18_CleanString_joins_the_fields (String "009" " "))))).
  reflexivity.
Defined.

(** X19: the common form of a Name of two or three parts is the normal form
    of its arguments joined by spaces: after a successful NewName2(f, s),
    CleanString(f + " " + s) returns the text of the Name, and after a
    successful NewName3(f, s, g), CleanString(f + " " + s + " " + g) does. *)
Theorem X19_Common_is_the_cleaned_join :
  (forall f s n, NewName2 f s = Some (n, None) ->
     CleanString (f ++ " " ++ s) = Common n)
  /\ (forall f s g n, NewName3 f s g = Some (n, None) ->
     CleanString (f ++ " " ++ s ++ " " ++ g) = Common n).
Proof.
  split.
  - intros f s n H. apply NewName2_success in H as (HF & HS & ->).
    rewrite CleanString_spec. unfold Common, ret. cbn [text]. f_equal.
    now apply spec_CleanString_join.
  - intros f s g n H. apply NewName3_success in H as (HF & HS & HG & ->).
    rewrite CleanString_spec. unfold Common, ret. cbn [text]. f_equal.
    rewrite spec_CleanString_join; [|exact HF|].
    + rewrite spec_CleanString_join by assumption. now rewrite !app_assoc.
    + rewrite spec_CleanString_join by assumption.
      intros E. apply app_eq_nil in E as [E _]. contradiction.
Qed.

Lemma X19_Common_is_the_cleaned_join_witness :
  CleanString ("William H.  " ++ " " ++ "      Keith" ++ " " ++ "Jr.")
  = Common (mkName "William H. Keith Jr." 11 16).
Proof.
  apply (proj2 X19_Common_is_the_cleaned_join). reflexivity.
Defined.

(** ** Names of any length *)

Section AnyLengthFacts.

Lemma uint16_le (z : Z) : 0 <= z -> uint16 z <= z.
Proof. intros H. unfold uint16. apply Z.mod_le; lia. Qed.

Lemma uint16_shift (a k : Z) :
  (uint16 a =? uint16 (a + k)) = (uint16 k =? 0).
Proof.
  unfold uint16.
  destruct (Z.eqb_spec (k mod 65536) 0) as [E | E].
  - apply Z.eqb_eq. rewrite Z.add_mod, E, Z.add_0_r, Z.mod_mod by lia. reflexivity.
  - apply Z.eqb_neq. intros H. apply E.
    assert (H' : (a + k - a) mod 65536 = 0).
    { rewrite Zminus_mod, <- H, Z.sub_diag. reflexivity. }
    replace (a + k - a) with k in H' by lia. exact H'.
Qed.

Lemma text2_nonempty (F S : string) : F ++ " " ++ S <> "".
Proof. destruct F; discriminate. Qed.

Lemma text3_nonempty (F S G : string) : (F ++ " " ++ S) ++ " " ++ G <> "".
Proof. destruct F; discriminate. Qed.

(** Forename on the two shapes with a forename, at any length. *)
Lemma Forename_returns (t : string) (lenF e : Z) :
  0 <= lenF -> lenF + 1 <= len t ->
  returns (Forename (mkName t (uint16 (lenF + 1)) e)).
Proof.
  intros H0 H1. unfold returns, Forename, slice_to. cbn [text boSurname].
  pose proof (uint16_range (lenF + 1)) as Hr.
  pose proof (uint16_le (lenF + 1) ltac:(lia)) as Hl.
  destruct (Z.eqb_spec (uint16 (lenF + 1)) 0) as [E | E]; [now exists ""|].
  rewrite uint16_small by lia. apply slice_total; lia.
Qed.

End AnyLengthFacts.

(** X20: the part count of a Name of any length.  After a successful
    NewName2 whose forename has the normal form F, NumParts returns 2
    unless len(F)+1 is a multiple of 65536, in which case it returns 1.
    After a successful NewName3 with the normal forms F and G of the
    forename and of the generation, NumParts returns 1 when len(F)+1 is a
    multiple of 65536, else 2 when len(G)+1 is one, else 3. *)
Theorem X20_NumParts_at_any_length :
  (forall f s F n,
     CleanString f = Some F -> NewName2 f s = Some (n, None) ->
     NumParts n = Some (if uint16 (len F + 1) =? 0 then 1 else 2))
  /\ (forall f s g F G n,
     CleanString f = Some F -> CleanString g = Some G ->
     NewName3 f s g = Some (n, None) ->
     NumParts n = Some (if uint16 (len F + 1) =? 0 then 1
                        else if uint16 (len G + 1) =? 0 then 2 else 3)).
Proof.
  split.
  - intros f s F n Hf H. rewrite CleanString_spec in Hf. injection Hf as <-.
    apply NewName2_success in H as (_ & _ & ->).
    unfold NumParts. cbn [text boSurname eoSurname].
    rewrite (eqb_nil_false _ (text2_nonempty _ _)), Z.eqb_refl.
    destruct (uint16 (len (spec_CleanString f) + 1) =? 0); reflexivity.
  - intros f s g F G n Hf Hg H. rewrite CleanString_spec in Hf, Hg.
    injection Hf as <-. injection Hg as <-.
    apply NewName3_success in H as (_ & _ & _ & ->).
    unfold NumParts. cbn [text boSurname eoSurname].
    rewrite (eqb_nil_false _ (text3_nonempty _ _ _)).
    replace (len ((spec_CleanString f ++ " " ++ spec_CleanString s)
                  ++ " " ++ spec_CleanString g))
      with (len (spec_CleanString f ++ " " ++ spec_CleanString s)
            + (len (spec_CleanString g) + 1))
      by (rewrite len_text3, len_text2; lia).
    rewrite uint16_shift.
    destruct (uint16 (len (spec_CleanString f) + 1) =? 0); [reflexivity|].
    destruct (uint16 (len (spec_CleanString g) + 1) =? 0); reflexivity.
Qed.

Lemma X20_NumParts_at_any_length_witness :
  NumParts (mkName "Dave Freer" 5 10)
  = Some (if uint16 (len "Dave" + 1) =? 0 then 1 else 2).
Proof.
  apply (proj1 X20_NumParts_at_any_length "Dave" "Freer"); reflexivity.
Defined.

(** X21: the accessors that never panic.  On the zero Name and on every Name
    built by a constructor, whatever the length of its text, Common, String,
    NumParts, Forename and Generation return; and on a Name built by
    NewName1 every accessor returns, Surname and FileAs included. *)
Theorem X21_accessors_that_return_at_any_length :
  (forall n, ValidName n ->
     returns (Common n) /\ returns (Name_String n) /\ returns (NumParts n)
     /\ returns (Forename n) /\ returns (Generation n))
  /\ (forall t n, NewName1 t = Some (n, None) ->
     returns (Surname n) /\ returns (FileAs n)).
Proof.
  split.
  - intros n Hv.
    split; [now exists (text n)|]. split; [now exists (text n)|].
    split; [destruct (NumParts_returns n) as (k & Hk & _); now exists k|].
    destruct Hv as [-> | [t n' H | f s n' H | f s g n' H]].
    + split; now exists "".
    + apply NewName1_success in H as [Ht ->].
      apply spec_CleanString_nonempty_arg in Ht.
      destruct (one_part_accessors t Ht) as (_ & _ & H3 & H4 & _).
      split; now exists "".
    + apply NewName2_success in H as (_ & _ & ->). split.
      * apply Forename_returns; [apply len_nonneg|].
        rewrite len_text2. pose proof (len_nonneg (spec_CleanString s)). lia.
      * unfold returns, Generation. cbn [text eoSurname].
        rewrite Z.eqb_refl. now exists "".
    + apply NewName3_success in H as (_ & _ & _ & ->). split.
      * apply Forename_returns; [apply len_nonneg|].
        rewrite len_text3. pose proof (len_nonneg (spec_CleanString s)).
        pose proof (len_nonneg (spec_CleanString g)). lia.
      * unfold returns, Generation, slice_from. cbn [text eoSurname].
        set (T := spec_CleanString f ++ " " ++ spec_CleanString s).
        set (G := spec_CleanString g).
        destruct (uint16 (len T) =? uint16 (len (T ++ " " ++ G))); [now exists ""|].
        assert (HT : len (T ++ " " ++ G) = len T + 1 + len G).
        { rewrite len_app. change (" " ++ G) with (String " " G).
          rewrite len_cons. lia. }
        pose proof (len_nonneg T) as H0. pose proof (len_nonneg G) as Hg.
        pose proof (uint16_range (len T)) as Hr.
        pose proof (uint16_le _ H0) as Hl.
        pose proof (uint16_range (uint16 (len T) + 1)) as Hr'.
        pose proof (uint16_le (uint16 (len T) + 1) ltac:(lia)) as Hl'.
        apply slice_total; lia.
  - intros t n H. apply NewName1_success in H as [Ht ->].
    apply spec_CleanString_nonempty_arg in Ht.
    destruct (one_part_accessors t Ht) as (_ & H2 & _ & _ & _ & _ & H7 & _).
    split; [exact H7 | now exists t].
Qed.

Lemma X21_accessors_that_return_at_any_length_witness :
  returns (Surname (mkName "Teller" 0 6)) /\ returns (FileAs (mkName "Teller" 0 6)).
Proof.
  apply (proj2 X21_accessors_that_return_at_any_length "Teller"). reflexivity.
Defined.
